(** * packages/themes/tasks/build.js

    A shallow embedding of the SCSS generation task of [@carbon/themes] and
    the properties of the three documents it assembles ([_tokens.scss],
    [_mixins.scss], [_theme-maps.scss]).

    Conventions of the embedding:
    - JavaScript strings are [string]; [+:+] is string concatenation. The
      text of names and role lines is taken to be ASCII, so that a character
      of [string] is one UTF-16 code unit of the JavaScript string.
    - A JavaScript object read through [Object.keys] is an association list
      in [Object.keys] order ([js_object]); [o[k]] is [js_get].
    - The nodes built with [t.*] of [@carbon/scss-generator] are the
      constructors of [node]; a field that the source leaves out of the
      builder's argument ([default], [global]) is [false].
    - [formatTokenName], [themes] and [tokens.colors] come from [../lib],
      which is not part of the source tree: they are Section variables.
    - Code that can throw returns an [outcome]. *)

From Stdlib Require Import Ascii String Qcanon.
From stdpp Require Import numbers gmap strings list fin_maps.

Local Open Scope string_scope.
Local Open Scope list_scope.

(** ** JavaScript values used by the task *)

Module JS.

(** The errors the task can meet. [TypeError] and [SyntaxError] are raised
    by the language itself, [ExternalError] stands for a failure reported
    by a collaborator (file system, YAML loader, serializer). *)
Inductive error :=
| TypeError
| SyntaxError
| ExternalError (what : string).

(** Result of running code that may throw. [OutOfModel] is not a result of
    the program: it marks inputs whose behaviour the embedding does not
    describe (a pattern source with regular-expression syntax beyond a
    plain alternation, an element of the [tokens] sequence whose name or
    alias is not a string). *)
Inductive outcome (A : Type) :=
| Returned (a : A)
| Thrown (e : error)
| OutOfModel.
Arguments Returned {A} a.
Arguments Thrown {A} e.
Arguments OutOfModel {A}.

(** An object as [Object.keys] enumerates it. *)
Definition js_object (V : Type) := list (string * V).

Definition Object_keys {V} (o : js_object V) : list string := map fst o.

(** [o[k]]: the first binding of [k]; [None] is [undefined]. *)
Fixpoint js_get {V} (o : js_object V) (k : string) : option V :=
  match o with
  | [] => None
  | (k', v) :: o' => if String.eqb k' k then Some v else js_get o' k
  end.

(** [xs.join(sep)] on an array of strings. *)
Fixpoint join (sep : string) (xs : list string) : string :=
  match xs with
  | [] => EmptyString
  | [x] => x
  | x :: xs' => x +:+ sep +:+ join sep xs'
  end.

(** The methods that every object inherits from [Object.prototype]. *)
Definition Object_prototype_methods : list string :=
  ["hasOwnProperty"; "isPrototypeOf"; "propertyIsEnumerable"; "toLocaleString";
   "toString"; "valueOf"; "__defineGetter__"; "__defineSetter__";
   "__lookupGetter__"; "__lookupSetter__"].

(** [o[k] = v] on an object literal whose own properties are [o], for a
    string [v]: the key [__proto__] is the accessor of the prototype, which
    ignores a value that is not an object. *)
Definition js_set (o : gmap string string) (k v : string) : gmap string string :=
  if String.eqb k "__proto__" then o else <[k := v]> o.

(** The text that concatenating [o[k]] to a string gives. An own property
    is its string. Otherwise the read goes to [Object.prototype]:
    [__proto__] is that object itself, printed [[object Object]], an
    inherited function is printed as Node prints a native function, and any
    other key is [undefined]. *)
Definition js_read_text (o : gmap string string) (k : string) : string :=
  if String.eqb k "__proto__" then "[object Object]"
  else match o !! k with
       | Some v => v
       | None =>
           if String.eqb k "constructor" then "function Object() { [native code] }"
           else if bool_decide (k ∈ Object_prototype_methods)
                then "function " +:+ k +:+ "() { [native code] }"
                else "undefined"
       end.

(** Truthiness of an optional string: [undefined] and the empty string
    are falsy. *)
Definition truthy (s : option string) : bool :=
  match s with
  | Some (String _ _) => true
  | _ => false
  end.

End JS.
Export JS.

(** ** Syntax trees of [@carbon/scss-generator] *)

#[local] Set Warnings "-register-all".

Inductive node :=
| Comment (value : string)
| Identifier (name : string)
| SassString (value : string)
| SassColor (value : string)
| SassImport (path : string)
| SassMapProperty (key value : node)
| SassMap (properties : list node)
| CallExpression (callee : node) (arguments : list node)
| LogicalExpression (left : node) (operator : string) (right : node)
| AssignmentPattern (left right : node)
| Assignment (id init : node) (default global : bool)
| AtContent
| BlockStatement (body : list node)
| IfStatement (test consequent : node)
| SassMixinCall (id : node)
| SassMixin (id : node) (params : list node) (body : node)
| StyleSheet (children : list node).

(** The children of a style sheet, the statements of a block. *)
Definition children (n : node) : list node :=
  match n with
  | StyleSheet c => c
  | BlockStatement b => b
  | _ => []
  end.

Definition is_Assignment (n : node) : bool :=
  match n with Assignment _ _ _ _ => true | _ => false end.

Definition is_AtContent (n : node) : bool :=
  match n with AtContent => true | _ => false end.


(** [assigns x n]: [n] is an assignment to the variable [x]. *)
Definition assigns (x : string) (n : node) : bool :=
  match n with
  | Assignment (Identifier y) _ _ _ => String.eqb x y
  | _ => false
  end.

(** [declares_map x n]: [n] assigns a map literal to the variable [x]. *)
Definition declares_map (x : string) (n : node) : bool :=
  match n with
  | Assignment (Identifier y) (SassMap _) _ _ => String.eqb x y
  | _ => false
  end.

(** ** Token metadata

    [yaml.safeLoad] returns a graph of mutable objects and
    [transformMetadata] rewrites it in place, so the metadata is a heap:
    a token entry and a [role] array are reached through references, and two
    positions of the [tokens] sequence may hold the same entry (a YAML
    anchor). Entries have the fields of the metadata file: a [name], an
    optional [role] array of strings, an optional [alias] string and a
    [deprecated] flag. Every reference is bound, as in a loaded document.

    A document need not have this shape. What else an element of the
    sequence can be is its [element_kind], what else the value of a truthy
    [role] can be is its [role_kind]; a [role] or an [alias] that is falsy
    ([null], [false], [0], the empty string) is skipped by the code like an
    absent one and is [None]. *)

Definition loc := nat.

Record token_entry := {
  name : string;
  role : option loc;          (* reference to an array of strings *)
  alias : option string;
  deprecated : bool           (* absent is [false] *)
}.

(** What stands at a position of the [tokens] sequence: an entry object with
    a string [name] (and a string [alias], if any), [null] or [undefined],
    or anything else (a scalar, an array, an object whose [name] or [alias]
    is not a string). *)
Inductive element_kind :=
| EntryObject
| NullElement
| UntypedElement.

(** What a truthy [role] is: an array of strings, a value that is no array
    (a string, a number, a mapping), or an array whose element [index] is
    not a string. *)
Inductive role_kind :=
| StringArray
| NotAnArray
| NonStringLine (index : nat).

Record heap := {
  objects : loc -> token_entry;
  arrays : loc -> list string;
  element_kinds : loc -> element_kind;
  role_kinds : loc -> role_kind
}.

(** A heap of entries and role arrays of the file's shape. *)
Definition typed_heap (entries : loc -> token_entry) (lines : loc -> list string) : heap :=
  {| objects := entries; arrays := lines;
     element_kinds := fun _ => EntryObject; role_kinds := fun _ => StringArray |}.

(** The [tokens] field of the loaded document. *)
Inductive tokens_field :=
| TokensMissing
| TokensNull
| TokensNonArray
| TokensSequence (refs : list loc).

Record metadata := { tokens : tokens_field }.

Definition set_array (h : heap) (l : loc) (a : list string) : heap :=
  {| objects := objects h;
     arrays := fun l' => if Nat.eqb l' l then a else arrays h l';
     element_kinds := element_kinds h; role_kinds := role_kinds h |}.

Definition set_alias (h : heap) (r : loc) (a : string) : heap :=
  {| objects := fun r' =>
       if Nat.eqb r' r
       then {| name := name (objects h r); role := role (objects h r);
               alias := Some a; deprecated := deprecated (objects h r) |}
       else objects h r';
     arrays := arrays h;
     element_kinds := element_kinds h; role_kinds := role_kinds h |}.

(** Two heaps hold the same entries and arrays. *)
Definition heap_equiv (h1 h2 : heap) : Prop :=
  (forall r, objects h1 r = objects h2 r) /\ (forall l, arrays h1 l = arrays h2 l).

(** ** Regular expressions, as far as the task uses them

    [namesRegEx] is [new RegExp(names.join('|'), 'g')] and is only used by
    [String.prototype.replace] with a callback. A pattern source without
    syntax characters other than the bar is a disjunction of literal
    alternatives; the matcher tries them from left to right at each position
    of the subject (leftmost position first, first alternative that matches
    there, not the longest). *)

Module RegExp.

(** SyntaxCharacter of the pattern grammar. *)
Definition syntax_character (c : ascii) : bool :=
  bool_decide (c ∈ ["^"; "$"; "\"; "."; "*"; "+"; "?"; "("; ")"; "[";
                    "]"; "{"; "}"; "|"]%char).

Fixpoint string_forallb (p : ascii -> bool) (s : string) : bool :=
  match s with
  | EmptyString => true
  | String c s' => p c && string_forallb p s'
  end.

Definition string_existsb (p : ascii -> bool) (s : string) : bool :=
  negb (string_forallb (fun c => negb (p c)) s).

(** A name that stands for itself inside a pattern. *)
Definition plain (s : string) : bool :=
  string_forallb (fun c => negb (syntax_character c)) s.

(** The source is a disjunction of literals. *)
Definition literal_disjunction (src : string) : bool :=
  string_forallb (fun c => negb (syntax_character c) || Ascii.eqb c "|") src.

(** An opening parenthesis that is neither escaped nor inside a class
    starts a group; with no closing parenthesis in the source the group is
    unterminated and the constructor throws. *)
Definition unterminated_group (src : string) : bool :=
  string_existsb (Ascii.eqb "(") src
  && negb (string_existsb
             (fun c => Ascii.eqb c ")" || Ascii.eqb c "\" || Ascii.eqb c "[")
             src).

(** The alternatives of a disjunction of literals: the source cut at each
    bar. *)
Fixpoint alternatives (src : string) : list string :=
  match src with
  | EmptyString => [EmptyString]
  | String c src' =>
      if Ascii.eqb c "|" then EmptyString :: alternatives src'
      else match alternatives src' with
           | a :: rest => String c a :: rest
           | [] => [String c EmptyString]
           end
  end.

(** A compiled pattern: its alternatives, in source order. *)
Record regexp := { alts : list string }.

(** [new RegExp(src, 'g')]. *)
Definition RegExp_new (src : string) : outcome regexp :=
  if literal_disjunction src then Returned {| alts := alternatives src |}
  else if unterminated_group src then Thrown SyntaxError
  else OutOfModel.

(** The first alternative that matches at the start of [s]. *)
Fixpoint first_match (alternatives : list string) (s : string) : option string :=
  match alternatives with
  | [] => None
  | a :: rest => if String.prefix a s then Some a else first_match rest s
  end.

(** [s.replace(rx, f)] for a global pattern, scanning [s] from the left.
    [skip] counts the characters of [s] that the last match still covers.
    After an empty match the scan copies one character and moves on, as
    the global replace advances [lastIndex] by one code unit past an empty
    match (the pattern has no [u] flag). *)
Fixpoint replace_from (alternatives : list string) (f : string -> string)
         (skip : nat) (s : string) {struct s} : string :=
  match skip with
  | S k =>
      match s with
      | EmptyString => EmptyString
      | String _ s' => replace_from alternatives f k s'
      end
  | O =>
      match first_match alternatives s with
      | Some m =>
          f m +:+
          match s with
          | EmptyString => EmptyString
          | String c s' =>
              match m with
              | EmptyString => String c (replace_from alternatives f 0 s')
              | String _ m' => replace_from alternatives f (String.length m') s'
              end
          end
      | None =>
          match s with
          | EmptyString => EmptyString
          | String c s' => String c (replace_from alternatives f 0 s')
          end
      end
  end.

Definition String_replace (rx : regexp) (f : string -> string) (s : string) : string :=
  replace_from (alts rx) f 0 s.

(** No alternative of [rx] matches anywhere in [s]. *)
Fixpoint no_match (alternatives : list string) (s : string) : bool :=
  match first_match alternatives s with
  | Some _ => false
  | None => match s with
            | EmptyString => true
            | String _ s' => no_match alternatives s'
            end
  end.

End RegExp.
Export RegExp.

(** ** The constants of the task *)

Definition FILE_BANNER : node :=
  Comment " Code generated by @carbon/themes. DO NOT EDIT.

 Copyright IBM Corp. 2018, 2018

 This source code is licensed under the Apache-2.0 license found in the
 LICENSE file in the root directory of this source tree.
".

(** Paths, relative to the directory of the task. *)
Definition SCSS_DIR : string := "../scss".
Definition METADATA_FILE : string := "../metadata.yml".
Definition MIXINS_ENTRYPOINT : string := SCSS_DIR +:+ "/_mixins.scss".
Definition TOKENS_ENTRYPOINT : string := SCSS_DIR +:+ "/_tokens.scss".
Definition MAPS_ENTRYPOINT : string := SCSS_DIR +:+ "/_theme-maps.scss".

Definition defaultTheme : string := "white".
Definition defaultThemeMapName : string := "carbon--theme".

(** ** The generator *)

Section Generator.

(** [formatTokenName], [themes] and [tokens.colors] of [../lib]. *)
Variable formatTokenName : string -> string.
Variable themes : js_object (js_object string).
Variable tokenColors : list string.

(** *** [transformMetadata] *)

(** [metadata.tokens.map(token => token.name)] *)
Definition token_names (h : heap) (refs : list loc) : list string :=
  map (fun r => name (objects h r)) refs.

(** [replaceMap], the own properties of the object that starts as [{}] and
    is filled entry by entry in sequence order. *)
Definition build_replaceMap (h : heap) (refs : list loc) : gmap string string :=
  foldl (fun replaceMap r =>
           js_set replaceMap (name (objects h r)) (formatTokenName (name (objects h r))))
        ∅ refs.

(** The callback of [role.replace]: [replaceMap[match]] wrapped in the
    documentation marker. *)
Definition replacement (replaceMap : gmap string string) (match_ : string) : string :=
  "`$" +:+ js_read_text replaceMap match_ +:+ "`".

(** One round of [metadata.tokens.forEach] on an entry of the file's shape:
    the [role] array of the entry is overwritten line by line, then its
    [alias] is formatted. *)
Definition rewrite_token (namesRegEx : regexp) (replaceMap : gmap string string)
           (h : heap) (r : loc) : heap :=
  let token := objects h r in
  let h1 :=
    match role token with
    | Some l =>
        set_array h l
          (map (String_replace namesRegEx (replacement replaceMap)) (arrays h l))
    | None => h
    end in
  match alias token with
  | Some a => if truthy (Some a) then set_alias h1 r (formatTokenName a) else h1
  | None => h1
  end.

(** Reading [token.name] of every element, as the first
    [metadata.tokens.map] does: a [null] element throws. An element without
    a string name reaches [formatTokenName] with a value that is no string,
    which the embedding does not describe. *)
Definition read_names (h : heap) (refs : list loc) : outcome unit :=
  if existsb (fun r => match element_kinds h r with NullElement => true | _ => false end)
             refs
  then Thrown TypeError
  else if existsb (fun r => match element_kinds h r with
                            | UntypedElement => true
                            | _ => false
                            end)
                  refs
       then OutOfModel
       else Returned tt.

(** One round of [metadata.tokens.forEach] on any entry. [token.role.forEach]
    throws when the role is no array, and [role.replace] throws at a line
    that is no string, after the lines before it have been overwritten; the
    alias is not reached then. *)
Definition visit_token (namesRegEx : regexp) (replaceMap : gmap string string)
           (h : heap) (r : loc) : outcome unit * heap :=
  let rewrite := String_replace namesRegEx (replacement replaceMap) in
  match role (objects h r) with
  | Some l =>
      match role_kinds h l with
      | StringArray => (Returned tt, rewrite_token namesRegEx replaceMap h r)
      | NotAnArray => (Thrown TypeError, h)
      | NonStringLine index =>
          if Nat.ltb index (length (arrays h l))
          then (Thrown TypeError,
                set_array h l (map rewrite (take index (arrays h l))
                               ++ drop index (arrays h l)))
          else (Returned tt, rewrite_token namesRegEx replaceMap h r)
      end
  | None => (Returned tt, rewrite_token namesRegEx replaceMap h r)
  end.

(** [metadata.tokens.forEach((token, i) => ...)]: the rounds in sequence
    order, up to the first that throws. *)
Fixpoint forEach_tokens (namesRegEx : regexp) (replaceMap : gmap string string)
         (h : heap) (refs : list loc) : outcome unit * heap :=
  match refs with
  | [] => (Returned tt, h)
  | r :: rest =>
      match visit_token namesRegEx replaceMap h r with
      | (Returned _, h') => forEach_tokens namesRegEx replaceMap h' rest
      | thrown => thrown
      end
  end.

(** [transformMetadata(metadata)], on the heap [h]: the result and the
    heap it leaves. The function returns its argument. *)
Definition transformMetadata (md : metadata) (h : heap) : outcome metadata * heap :=
  match tokens md with
  | TokensSequence refs =>
      match read_names h refs with
      | Returned _ =>
          match RegExp_new (join "|" (token_names h refs)) with
          | Returned namesRegEx =>
              let replaceMap := build_replaceMap h refs in
              match forEach_tokens namesRegEx replaceMap h refs with
              | (Returned _, h') => (Returned md, h')
              | (Thrown e, h') => (Thrown e, h')
              | (OutOfModel, h') => (OutOfModel, h')
              end
          | Thrown e => (Thrown e, h)
          | OutOfModel => (OutOfModel, h)
          end
      | Thrown e => (Thrown e, h)
      | OutOfModel => (OutOfModel, h)
      end
  | _ => (Thrown TypeError, h)
  end.

(** *** [themeMaps] *)

Definition theme_comment (name : string) : node :=
  Comment ("/ Carbon's " +:+ name +:+ " color theme
/ @type Map
/ @access public
/ @group @carbon/themes").

(** The map literal of one theme: [Object.keys(theme).map(...)]. *)
Definition theme_properties (theme : js_object string) : list node :=
  map (fun token =>
         SassMapProperty
           (Identifier (formatTokenName token))
           (SassColor (default "undefined" (js_get theme token))))
      (Object_keys theme).

Definition theme_variable (name : string) (theme : js_object string) : node :=
  Assignment (Identifier ("carbon--theme--" +:+ name))
             (SassMap (theme_properties theme))
             true false.

Definition themeMaps : list node :=
  flat_map (fun name =>
              let theme := default [] (js_get themes name) in
              [theme_comment name; theme_variable name theme])
           (Object_keys themes).

(** *** [themeMixin] *)

Definition themeMixin_comment : node :=
  Comment ("/ Define theme variables from a map of tokens
/ @access public
/ @param {Map} $theme [$" +:+ defaultThemeMapName +:+ "] - Map of theme tokens
/ @content Pass in your custom declaration blocks to be used after the token maps set theming variables.
/
/ @example scss
/   // Default usage
/   @include carbon--theme();
/
/   // Alternate styling (not white theme)
/   @include carbon--theme($carbon--theme--g90) {
/     // declarations...
/   }
/
/   // Inline styling
/   @include carbon--theme($carbon--theme--g90) {
/     .my-dark-theme {
/       // declarations...
/     }
/   }
/
/ @group @carbon/themes").

(** The global reassignment of one token inside the mixin. *)
Definition global_assignment (token : string) : node :=
  let name := formatTokenName token in
  Assignment (Identifier name)
             (CallExpression (Identifier "map-get")
                             [Identifier "theme"; SassString name])
             false true.

Definition reset_guard : node :=
  IfStatement
    (LogicalExpression (Identifier "theme") "!=" (Identifier defaultThemeMapName))
    (BlockStatement [SassMixinCall (Identifier "carbon--theme")]).

Definition themeMixin_body : node :=
  BlockStatement
    (map global_assignment tokenColors
     ++ [AtContent;
         Comment " Reset to default theme after apply in content";
         reset_guard]).

Definition themeMixin_definition : node :=
  SassMixin (Identifier "carbon--theme")
            [AssignmentPattern (Identifier "theme") (Identifier defaultThemeMapName)]
            themeMixin_body.

Definition themeMixin : list node := [themeMixin_comment; themeMixin_definition].

Definition mixinsFile : node :=
  StyleSheet ([FILE_BANNER; SassImport "./theme-maps"] ++ themeMixin).

(** *** [tokensFile] *)

(** [(metadata.tokens && metadata.tokens.find(tok => tok.name === token)) || {}];
    [None] is the empty object. [metadata] is the value that
    [transformMetadata] returned and [h] the heap it left: the [tokens] field
    is a sequence of entry objects and the role of each is an array of
    strings, or [transformMetadata] would have thrown. *)
Definition tokenData (md : metadata) (h : heap) (token : string) : option token_entry :=
  match tokens md with
  | TokensSequence refs =>
      objects h <$> List.find (fun r => String.eqb (name (objects h r)) token) refs
  | _ => None
  end.

(** [xs.filter(Boolean)] on a list whose falsy members are [None]. *)
Definition filter_Boolean (xs : list (option node)) : list node := omap id xs.

Definition token_type_comment : node :=
  Comment "/ @type Color
/ @access public
/ @group @carbon/themes".

(** The default assignment of one token. *)
Definition default_assignment (token : string) : node :=
  let name := formatTokenName token in
  Assignment (Identifier name)
             (CallExpression (Identifier "map-get")
                             [Identifier defaultThemeMapName; SassString name])
             true false.

Definition token_block (md : metadata) (h : heap) (token : string) : list node :=
  let tokenData := tokenData md h token in
  filter_Boolean
    [ (tokenData ≫= role) ≫= (fun l =>
         Some (Comment ("/ " +:+ join "; " (arrays h l))));
      Some token_type_comment;
      (tokenData ≫= alias) ≫= (fun a =>
         if truthy (Some a) then Some (Comment ("/ @alias " +:+ a)) else None);
      tokenData ≫= (fun d =>
         if deprecated d then Some (Comment "/ @deprecated") else None);
      Some (default_assignment token) ].

Definition tokensFile (md : metadata) (h : heap) : node :=
  StyleSheet ([FILE_BANNER; SassImport "./theme-maps"]
              ++ flat_map (token_block md h) tokenColors).

(** *** [themeMapsFile] *)

Definition default_theme_comment : node :=
  Comment ("/ Carbon's default theme
/ @type Map
/ @access public
/ @alias carbon--theme--" +:+ defaultTheme +:+ "
/ @group @carbon/themes").

Definition default_theme_alias : node :=
  Assignment (Identifier defaultThemeMapName)
             (Identifier ("carbon--theme--" +:+ defaultTheme))
             true false.

Definition themeMapsFile : node :=
  StyleSheet ([FILE_BANNER] ++ themeMaps
              ++ [default_theme_comment; default_theme_alias]).

End Generator.

(** ** Effects of a run

    [build] talks to the reporter, the file system, the YAML loader and the
    serializer. What these collaborators answer is a [world]; what the run
    does to them is a list of [event]s, oldest first. *)

Module Run.

Record world := {
  fs_readFileSync : string -> outcome string;
  yaml_safeLoad : string -> outcome (metadata * heap);
  generate : node -> outcome string;
  fs_ensureDir : string -> outcome unit;
  fs_writeFile : string -> string -> outcome unit
}.

Inductive event :=
| reporter_info (message : string)
| reporter_success (message : string)
| ensured_dir (path : string)
| wrote_file (path code : string)
| console_error (e : error).

(** A computation that may throw and that extends the trace. *)
Definition M (A : Type) : Type := list event -> outcome A * list event.

#[export] Instance M_ret : MRet M := fun A a trace => (Returned a, trace).

#[export] Instance M_bind : MBind M := fun A B k m trace =>
  match m trace with
  | (Returned a, trace') => k a trace'
  | (Thrown e, trace') => (Thrown e, trace')
  | (OutOfModel, trace') => (OutOfModel, trace')
  end.

(** Record an event. *)
Definition emit (ev : event) : M unit := fun trace => (Returned tt, trace ++ [ev]).

(** The answer of a collaborator. *)
Definition answer {A} (o : outcome A) : M A := fun trace => (o, trace).

(** The state of the process when the event loop is drained:
    [process.exitCode], and whether a rejected promise was left without a
    handler. *)
Record process := {
  trace : list event;
  exitCode : option nat;
  unhandled_rejection : bool
}.

(** The status the process exits with. *)
Definition exit_status (p : process) : nat :=
  if unhandled_rejection p then 1 else default 0 (exitCode p).

Definition is_success (ev : event) : bool :=
  match ev with reporter_success _ => true | _ => false end.

Definition is_write (ev : event) : bool :=
  match ev with wrote_file _ _ => true | _ => false end.

Definition is_console_error (ev : event) : bool :=
  match ev with console_error _ => true | _ => false end.

End Run.
Export Run.

Section Build.

Variable formatTokenName : string -> string.
Variable themes : js_object (js_object string).
Variable tokenColors : list string.
Variable w : world.

(** The three documents of a run. *)
Record documents := {
  doc_tokens : node;
  doc_mixins : node;
  doc_maps : node
}.

(** The documents assembled from the transformed metadata. *)
Definition assemble (md : metadata) (h : heap) : documents :=
  {| doc_tokens := tokensFile formatTokenName tokenColors md h;
     doc_mixins := mixinsFile formatTokenName tokenColors;
     doc_maps := themeMapsFile formatTokenName themes |}.

(** [fs.writeFile(path, generate(file).code)] *)
Definition write_document (path : string) (file : node) : M unit :=
  code ← answer (generate w file);
  _ ← answer (fs_writeFile w path code);
  emit (wrote_file path code).

(** [async function build()] *)
Definition build : M unit :=
  _ ← emit (reporter_info "Building scss files for themes...");
  text ← answer (fs_readFileSync w METADATA_FILE);
  loaded ← answer (yaml_safeLoad w text);
  metadata ← answer (fst (transformMetadata formatTokenName loaded.1 loaded.2));
  let h := snd (transformMetadata formatTokenName loaded.1 loaded.2) in
  let docs := assemble metadata h in
  _ ← answer (fs_ensureDir w SCSS_DIR);
  _ ← emit (ensured_dir SCSS_DIR);
  _ ← write_document TOKENS_ENTRYPOINT (doc_tokens docs);
  _ ← write_document MIXINS_ENTRYPOINT (doc_mixins docs);
  _ ← write_document MAPS_ENTRYPOINT (doc_maps docs);
  emit (reporter_success "Done! 🎉").

(** [build().catch(error => { console.error(error); })]: the handler logs
    the error and returns, which settles the promise; nothing sets
    [process.exitCode]. *)
Definition main : process :=
  match build [] with
  | (Thrown e, trace) =>
      {| trace := trace ++ [console_error e];
         exitCode := None; unhandled_rejection := false |}
  | (_, trace) =>
      {| trace := trace; exitCode := None; unhandled_rejection := false |}
  end.

End Build.

(** ** What the emitted mixin does when a style sheet includes it

    A small evaluator for the statements that [themeMixin] is made of. A
    theme map binds canonical token names to colors, [map-get] of a missing
    key is [null] and [map-get] on anything but a map is an error. Values
    are compared by value: a color is its channels, however the style sheet
    writes it, and two maps are equal when they hold the same bindings. The
    number of times the mixin is entered is counted in the state. *)

Module Sass.

(** A color: its red, green and blue channels and its opacity. [#0F62FE],
    [#0f62fe] and [rgb(15, 98, 254)] are one color. *)
Record color := {
  red : N;
  green : N;
  blue : N;
  alpha : Qc
}.

#[global] Instance color_eq_dec : EqDecision color.
Proof. solve_decision. Defined.

(** The value of a hexadecimal digit, in either case. *)
Definition hex_digit (c : ascii) : option N :=
  let n := N_of_ascii c in
  if (48 <=? n)%N && (n <=? 57)%N then Some (n - 48)%N
  else if (97 <=? n)%N && (n <=? 102)%N then Some (n - 87)%N
  else if (65 <=? n)%N && (n <=? 70)%N then Some (n - 55)%N
  else None.

Definition hex_channel (hi lo : ascii) : option N :=
  h ← hex_digit hi; l ← hex_digit lo; Some (16 * h + l)%N.

(** The color that the six-digit notation [#rrggbb] writes. *)
Definition hex_color (text : string) : option color :=
  match text with
  | String sharp (String r1 (String r2 (String g1 (String g2
      (String b1 (String b2 EmptyString)))))) =>
      if Ascii.eqb sharp "#" then
        r ← hex_channel r1 r2; g ← hex_channel g1 g2; b ← hex_channel b1 b2;
        Some {| red := r; green := g; blue := b; alpha := 1 |}
      else None
  | _ => None
  end.

Inductive value :=
| VNull
| VColor (c : color)
| VMap (entries : gmap string color).

#[export] Instance value_eq_dec : EqDecision value.
Proof. solve_decision. Defined.

Record state := {
  globals : gmap string value;
  invocations : nat
}.

Inductive result :=
| Done (st : state)
| Error (st : state)        (* the style sheet does not compile *)
| Unsupported               (* a statement the mixin never contains *)
| OutOfFuel.

(** A variable is read in the scope of the mixin first. *)
Definition read (locals globals : gmap string value) (x : string) : option value :=
  match locals !! x with
  | Some v => Some v
  | None => globals !! x
  end.

(** Expressions of the mixin: a variable, or [map-get] of an expression
    at a string key. [None] is an error. *)
Fixpoint eval (locals globals : gmap string value) (e : node) : option value :=
  match e with
  | Identifier x => read locals globals x
  | CallExpression (Identifier f) [m; SassString key] =>
      if String.eqb f "map-get" then
        match eval locals globals m with
        | Some (VMap entries) =>
            Some (match entries !! key with Some c => VColor c | None => VNull end)
        | _ => None
        end
      else None
  | _ => None
  end.

(** The test of a conditional. *)
Definition eval_test (locals globals : gmap string value) (e : node) : option bool :=
  match e with
  | LogicalExpression l op r =>
      if String.eqb op "!=" then
        match eval locals globals l, eval locals globals r with
        | Some a, Some b => Some (negb (bool_decide (a = b)))
        | _, _ => None
        end
      else None
  | _ => None
  end.

Section Exec.

(** The mixin being run: its name, what including it once more with no
    argument and no content block does, the content block of this
    inclusion, and the parameters in scope. *)
Variable mixin_name : string.
Variable call : state -> result.
Variable content : gmap string value -> gmap string value.
Variable locals : gmap string value.

Fixpoint exec_stmt (s : node) (st : state) {struct s} : result :=
  match s with
  | Comment _ => Done st
  | Assignment (Identifier x) init false true =>
      match eval locals (globals st) init with
      | Some v => Done {| globals := <[x := v]> (globals st);
                          invocations := invocations st |}
      | None => Error st
      end
  | AtContent =>
      Done {| globals := content (globals st); invocations := invocations st |}
  | IfStatement test (BlockStatement consequent) =>
      match eval_test locals (globals st) test with
      | Some true =>
          (fix run (stmts : list node) (st : state) : result :=
             match stmts with
             | [] => Done st
             | s' :: rest =>
                 match exec_stmt s' st with
                 | Done st' => run rest st'
                 | r => r
                 end
             end) consequent st
      | Some false => Done st
      | None => Error st
      end
  | SassMixinCall (Identifier f) =>
      if String.eqb f mixin_name then call st else Error st
  | _ => Unsupported
  end.

Fixpoint exec_block (stmts : list node) (st : state) : result :=
  match stmts with
  | [] => Done st
  | s :: rest =>
      match exec_stmt s st with
      | Done st' => exec_block rest st'
      | r => r
      end
  end.

End Exec.

(** [@include mixin(arg) { content }]: the parameter takes the argument or,
    without one, the value of its default expression; then the body runs.
    [fuel] bounds the depth of inclusions. *)
Fixpoint include (fuel : nat) (mixin : node) (arg : option value)
         (content : gmap string value -> gmap string value) (st : state) : result :=
  match fuel with
  | O => OutOfFuel
  | S fuel' =>
      match mixin with
      | SassMixin (Identifier f) [AssignmentPattern (Identifier p) dflt]
                  (BlockStatement body) =>
          let st1 := {| globals := globals st; invocations := S (invocations st) |} in
          match (match arg with
                 | Some v => Some v
                 | None => eval ∅ (globals st) dflt
                 end) with
          | Some v =>
              exec_block f (include fuel' mixin None id) content {[p := v]} body st1
          | None => Error st1
          end
      | _ => Unsupported
      end
  end.

End Sass.

(** ** Sample inputs *)

Module Sample.

Definition is_digit (c : ascii) : bool :=
  (48 <=? nat_of_ascii c)%nat && (nat_of_ascii c <=? 57)%nat.

Definition is_upper (c : ascii) : bool :=
  (65 <=? nat_of_ascii c)%nat && (nat_of_ascii c <=? 90)%nat.

Definition to_lower (c : ascii) : ascii := ascii_of_nat (nat_of_ascii c + 32).

(** Modelled from the spec: the identifier-formatting utility
    ([formatTokenName] of [../lib]) is outside the source tree. The spec
    describes it as the pure function from a raw token key to its canonical
    dashed name, with [interactive01] written [interactive-01] (and the
    source comments [brand01 to brand-01]): a dash is put before the scale
    number, which ends the name, and each capitalized word is put in lower
    case after a dash. It is used for sample runs only. *)
Fixpoint format_from (after_upper : bool) (token : string) : string :=
  match token with
  | EmptyString => EmptyString
  | String c rest =>
      if is_digit c then "-" +:+ token
      else if is_upper c then
        if after_upper then String (to_lower c) (format_from true rest)
        else "-" +:+ String (to_lower c) (format_from true rest)
      else String c (format_from false rest)
  end.

Definition formatTokenName : string -> string := format_from false.

(** The example of the spec: one token, one theme. *)
Definition tokenColors : list string := ["interactive01"].

Definition themes : js_object (js_object string) :=
  [("white", [("interactive01", "#0f62fe")])].

(** The colors of [interactive01] in the themes [white] and [g90],
    [#0f62fe] and [#4589ff]. *)
Definition blue60 : Sass.color :=
  {| Sass.red := 15; Sass.green := 98; Sass.blue := 254; Sass.alpha := 1 |}.
Definition blue50 : Sass.color :=
  {| Sass.red := 69; Sass.green := 137; Sass.blue := 255; Sass.alpha := 1 |}.

(** A metadata document with two entries; entry [0] has the role array
    [0], entry [1] has none. *)
Definition entry0 : token_entry :=
  {| name := "interactive01"; role := Some 0; alias := Some "brand01";
     deprecated := false |}.

Definition entry1 : token_entry :=
  {| name := "uiBackground"; role := None; alias := None; deprecated := true |}.

Definition sample_heap : heap :=
  typed_heap (fun r => match r with 0 => entry0 | _ => entry1 end)
             (fun l => match l with
                        | 0 => ["Primary interactive color, see interactive01"]
                        | _ => []
                        end).

Definition sample_metadata : metadata := {| tokens := TokensSequence [0; 1] |}.

(** A world in which every collaborator answers. *)
Definition friendly : world :=
  {| fs_readFileSync := fun _ => Returned "tokens: ...";
     yaml_safeLoad := fun _ => Returned (sample_metadata, sample_heap);
     generate := fun _ => Returned "/* scss */";
     fs_ensureDir := fun _ => Returned tt;
     fs_writeFile := fun _ _ => Returned tt |}.

End Sample.

(** ** Vocabulary of the statements *)

(** The statements of a block before and after its first [@content]. *)
Fixpoint before_content (stmts : list node) : list node :=
  match stmts with
  | [] => []
  | AtContent :: _ => []
  | s :: rest => s :: before_content rest
  end.

Fixpoint after_content (stmts : list node) : list node :=
  match stmts with
  | [] => []
  | AtContent :: rest => rest
  | _ :: rest => after_content rest
  end.

(** The truthy role at [l] is not an array of strings: it is no array, or
    one of its elements is not a string. *)
Definition faulty_role (h : heap) (l : loc) : bool :=
  match role_kinds h l with
  | StringArray => false
  | NotAnArray => true
  | NonStringLine index => Nat.ltb index (length (arrays h l))
  end.

(** The bodies of the mixins that a style sheet defines. *)
Definition mixin_bodies (file : node) : list (list node) :=
  flat_map (fun n => match n with
                     | SassMixin _ _ (BlockStatement body) => [body]
                     | _ => []
                     end)
           (children file).

Section Vocabulary.

Variable formatTokenName : string -> string.

(** The entry of one binding of a theme table. *)
Definition map_entry (binding : string * string) : node :=
  SassMapProperty (Identifier (formatTokenName binding.1)) (SassColor binding.2).

(** The declarations of the themes whose names are [names], as [themeMaps]
    builds them from the table [themes]. *)
Definition theme_nodes (themes : js_object (js_object string)) (names : list string) :=
  flat_map (fun name =>
              [theme_comment name;
               theme_variable formatTokenName name (default [] (js_get themes name))])
           names.

(** What one round does to an alias. *)
Definition format_alias (a : option string) : option string :=
  match a with
  | Some a => if truthy (Some a) then Some (formatTokenName a) else Some a
  | None => None
  end.

(** The number of positions of the sequence that hold the entry [r]. *)
Definition positions (r : loc) (refs : list loc) : nat :=
  length (List.filter (Nat.eqb r) refs).



End Vocabulary.

(** The claim of C5 for a formatter: after [transformMetadata] the alias of
    an entry is its former alias rewritten like a role line. *)
Definition alias_rewritten_like_role (formatTokenName : string -> string) : Prop :=
  forall md h refs rx md1 h1 r a,
    tokens md = TokensSequence refs ->
    RegExp_new (join "|" (token_names h refs)) = Returned rx ->
    transformMetadata formatTokenName md h = (Returned md1, h1) ->
    r ∈ refs ->
    alias (objects h r) = Some a ->
    alias (objects h1 r)
    = Some (String_replace rx (replacement (build_replaceMap formatTokenName h refs)) a).

(** The claim of C3 for a formatter: a second application to the result of
    the first returns the same metadata. *)
Definition transform_idempotent (formatTokenName : string -> string) : Prop :=
  forall md h md1 h1,
    transformMetadata formatTokenName md h = (Returned md1, h1) ->
    exists h2,
      transformMetadata formatTokenName md1 h1 = (Returned md1, h2)
      /\ heap_equiv h2 h1.

(** ** Metadata documents used below *)

Module Docs.

Definition entry (n : string) (r : option loc) (a : option string) : token_entry :=
  {| name := n; role := r; alias := a; deprecated := false |}.

(** One token, named by a backquote, whose role line is its own name. *)
Definition backquote_heap : heap :=
  typed_heap (fun _ => entry "`" (Some 0) None)
             (fun _ => ["`"]).
Definition backquote : metadata := {| tokens := TokensSequence [0] |}.

(** [brand01], and [interactive01] with the alias [brand01]. *)
Definition alias_heap : heap :=
  typed_heap (fun r => match r with
                         | 0 => entry "brand01" None None
                         | _ => entry "interactive01" None (Some "brand01")
                         end)
     (fun _ => []).
Definition aliased : metadata := {| tokens := TokensSequence [0; 1] |}.

(** [hoverPrimary] is declared before [hoverPrimaryText], whose role line
    mentions [hoverPrimaryText]. *)
Definition hover_heap : heap :=
  typed_heap (fun r => match r with
                         | 0 => entry "hoverPrimary" None None
                         | _ => entry "hoverPrimaryText" (Some 0) None
                         end)
     (fun _ => ["Text on hoverPrimaryText"]).
Definition shorter_first : metadata := {| tokens := TokensSequence [0; 1] |}.
Definition longer_first : metadata := {| tokens := TokensSequence [1; 0] |}.

(** [focus], whose role line is its own name. *)
Definition focus_heap : heap :=
  typed_heap (fun _ => entry "focus" (Some 0) None)
             (fun _ => ["focus"]).
Definition focus : metadata := {| tokens := TokensSequence [0] |}.

(** A token whose name opens a group. *)
Definition paren_heap : heap :=
  typed_heap (fun _ => entry "(" None None)
             (fun _ => []).
Definition paren : metadata := {| tokens := TokensSequence [0] |}.

(** [tokens: [null]]: the only element of the sequence is [null]. *)
Definition null_element_heap : heap :=
  {| objects := fun _ => entry EmptyString None None;
     arrays := fun _ => [];
     element_kinds := fun _ => NullElement;
     role_kinds := fun _ => StringArray |}.
Definition null_element : metadata := {| tokens := TokensSequence [0] |}.

(** [interactive01] with [role: text], a string where an array is
    expected. *)
Definition scalar_role_heap : heap :=
  {| objects := fun _ => entry "interactive01" (Some 0) None;
     arrays := fun _ => [];
     element_kinds := fun _ => EntryObject;
     role_kinds := fun _ => NotAnArray |}.
Definition scalar_role : metadata := {| tokens := TokensSequence [0] |}.

(** [interactive01], whose role array holds a line that mentions it and then
    a number. *)
Definition number_line_heap : heap :=
  {| objects := fun _ => entry "interactive01" (Some 0) (Some "brand01");
     arrays := fun _ => ["see interactive01"; "42"];
     element_kinds := fun _ => EntryObject;
     role_kinds := fun _ => NonStringLine 1 |}.
Definition number_line : metadata := {| tokens := TokensSequence [0] |}.

(** [brand01] and [interactive01] share one role array, whose line
    mentions neither. *)
Definition shared_role_heap : heap :=
  typed_heap (fun r => match r with
                       | 0 => entry "brand01" (Some 0) None
                       | _ => entry "interactive01" (Some 0) None
                       end)
             (fun _ => ["Brand color"]).
Definition shared_role : metadata := {| tokens := TokensSequence [0; 1] |}.

(** A token named [__proto__], whose role line is its own name. *)
Definition proto_heap : heap :=
  typed_heap (fun _ => entry "__proto__" (Some 0) None)
             (fun _ => ["__proto__"]).
Definition proto : metadata := {| tokens := TokensSequence [0] |}.

(** A document without a [tokens] field. *)
Definition no_tokens : metadata := {| tokens := TokensMissing |}.

(** [interactive01] with a role line that mentions it and the alias
    [focus]. *)
Definition settled_heap : heap :=
  typed_heap (fun _ => entry "interactive01" (Some 0) (Some "focus"))
             (fun _ => ["see interactive01"]).
Definition settled : metadata := {| tokens := TokensSequence [0] |}.

End Docs.

(** ** Collaborators that fail *)

Module Worlds.

(** The metadata file cannot be read. *)
Definition unreadable : world :=
  {| fs_readFileSync := fun _ => Thrown (ExternalError "ENOENT");
     yaml_safeLoad := fun _ => Returned (Sample.sample_metadata, Sample.sample_heap);
     generate := fun _ => Returned "/* scss */";
     fs_ensureDir := fun _ => Returned tt;
     fs_writeFile := fun _ _ => Returned tt |}.

(** The mixins file cannot be written. *)
Definition read_only_mixins : world :=
  {| fs_readFileSync := fun _ => Returned "tokens: ...";
     yaml_safeLoad := fun _ => Returned (Sample.sample_metadata, Sample.sample_heap);
     generate := fun _ => Returned "/* scss */";
     fs_ensureDir := fun _ => Returned tt;
     fs_writeFile := fun path _ =>
       if String.eqb path MIXINS_ENTRYPOINT then Thrown (ExternalError "EACCES")
       else Returned tt |}.

End Worlds.

(** ** Vocabulary of the further properties *)

Definition is_Comment (n : node) : bool :=
  match n with Comment _ => true | _ => false end.

Definition is_SassImport (n : node) : bool :=
  match n with SassImport _ => true | _ => false end.

(** [n] assigns a map literal to a variable. *)
Definition is_map_declaration (n : node) : bool :=
  match n with Assignment _ (SassMap _) _ _ => true | _ => false end.

(** The keys of the map literal that [n] declares. *)
Definition map_keys (n : node) : list string :=
  match n with
  | Assignment _ (SassMap properties) _ _ =>
      flat_map (fun p => match p with
                         | SassMapProperty (Identifier key) _ => [key]
                         | _ => []
                         end)
               properties
  | _ => []
  end.

(** The key that the [map-get] of an assignment looks up. *)
Definition lookup_key (n : node) : option string :=
  match n with
  | Assignment _ (CallExpression _ [_; SassString key]) _ _ => Some key
  | _ => None
  end.

(** The number of positions of the sequence whose entry has the array [l]
    as its [role]. *)
Definition role_positions (h : heap) (l : loc) (refs : list loc) : nat :=
  length (List.filter (fun r => bool_decide (role (objects h r) = Some l)) refs).

(** A formatted name inside the documentation marker. *)
Definition marked (formatTokenName : string -> string) (n : string) : string :=
  "`$" +:+ formatTokenName n +:+ "`".

Module MoreWorlds.

(** The theme-maps file cannot be written. *)
Definition read_only_maps : world :=
  {| fs_readFileSync := fun _ => Returned "tokens: ...";
     yaml_safeLoad := fun _ => Returned (Sample.sample_metadata, Sample.sample_heap);
     generate := fun _ => Returned "/* scss */";
     fs_ensureDir := fun _ => Returned tt;
     fs_writeFile := fun path _ =>
       if String.eqb path MAPS_ENTRYPOINT then Thrown (ExternalError "EACCES")
       else Returned tt |}.

End MoreWorlds.

(** * Properties *)

(** Settle a decidable, closed proposition by evaluating its decision. *)
Ltac by_computation := apply (bool_decide_unpack _); vm_compute; exact I.

(** ** Sample runs of the embedding *)

Example replace_leftmost_first :
  String_replace {| alts := ["ui"; "ui01"] |} (fun m => "<" +:+ m +:+ ">") "see ui01"
  = "see <ui>01".
Proof. reflexivity. Qed.

Example replace_longer_first :
  String_replace {| alts := ["ui01"; "ui"] |} (fun m => "<" +:+ m +:+ ">") "see ui01, ui"
  = "see <ui01>, <ui>".
Proof. reflexivity. Qed.

Example replace_empty_alternative :
  String_replace {| alts := alternatives "a|" |} (fun _ => "-") "ab" = "--b-".
Proof. reflexivity. Qed.

Example RegExp_new_names :
  RegExp_new (join "|" ["interactive01"; "ui01"])
  = Returned {| alts := ["interactive01"; "ui01"] |}.
Proof. reflexivity. Qed.

Example RegExp_new_unterminated : RegExp_new "a(" = Thrown SyntaxError.
Proof. reflexivity. Qed.

Example format_interactive01 : Sample.formatTokenName "interactive01" = "interactive-01".
Proof. reflexivity. Qed.

Example format_uiBackground : Sample.formatTokenName "uiBackground" = "ui-background".
Proof. reflexivity. Qed.

Example format_hoverUI : Sample.formatTokenName "hoverUI" = "hover-ui".
Proof. reflexivity. Qed.

(** The role line of the spec's example is rewritten to a reference. *)
Example transform_sample_role :
  arrays (transformMetadata Sample.formatTokenName Sample.sample_metadata
                            Sample.sample_heap).2 0
  = ["Primary interactive color, see `$interactive-01`"].
Proof. vm_compute. reflexivity. Qed.

Example transform_sample_alias :
  alias (objects (transformMetadata Sample.formatTokenName Sample.sample_metadata
                                    Sample.sample_heap).2 0)
  = Some "brand-01".
Proof. vm_compute. reflexivity. Qed.

Example themeMapsFile_sample :
  children (themeMapsFile Sample.formatTokenName Sample.themes)
  = [ FILE_BANNER;
      theme_comment "white";
      Assignment (Identifier "carbon--theme--white")
                 (SassMap [SassMapProperty (Identifier "interactive-01")
                                           (SassColor "#0f62fe")])
                 true false;
      default_theme_comment;
      Assignment (Identifier "carbon--theme") (Identifier "carbon--theme--white")
                 true false ].
Proof. reflexivity. Qed.


(** ** Objects and strings *)

Lemma js_get_elem_of {V} (o : js_object V) k v :
  js_get o k = Some v -> (k, v) ∈ o.
Proof.
  induction o as [|[k' v'] o IH]; simpl; [done|].
  destruct (String.eqb_spec k' k) as [->|Hne].
  - intros [= ->]. left.
  - intros H. right. auto.
Qed.

Lemma js_get_None {V} (o : js_object V) k :
  js_get o k = None <-> k ∉ Object_keys o.
Proof.
  induction o as [|[k' v'] o IH]; simpl.
  - split; [intros _; apply not_elem_of_nil | done].
  - rewrite not_elem_of_cons. destruct (String.eqb_spec k' k) as [->|Hne].
    + split; [done | intros [? _]; done].
    + rewrite IH. split; [intros ?; split; congruence | intros [_ ?]; done].
Qed.

Lemma js_get_NoDup {V} (o : js_object V) k v :
  NoDup (Object_keys o) -> (k, v) ∈ o -> js_get o k = Some v.
Proof.
  induction o as [|[k' v'] o IH]; simpl.
  - intros _ H. by apply elem_of_nil in H.
  - intros Hnd Hin. apply NoDup_cons in Hnd as [Hk' Hnd].
    apply elem_of_cons in Hin as [[= -> ->]|Hin].
    + by rewrite String.eqb_refl.
    + destruct (String.eqb_spec k' k) as [->|Hne]; [|by apply IH].
      exfalso. apply Hk'. apply (list_elem_of_fmap_2 fst) in Hin. exact Hin.
Qed.

Lemma theme_name_inj a b : "carbon--theme--" +:+ a = "carbon--theme--" +:+ b -> a = b.
Proof. apply (inj (String.append _)). Qed.

Lemma string_length_app (a b : string) :
  String.length (a +:+ b) = String.length a + String.length b.
Proof.
  induction a as [|c a IH]; [reflexivity|].
  change (S (String.length (a +:+ b)) = S (String.length a + String.length b)).
  by rewrite IH.
Qed.

Lemma theme_name_not_default a : "carbon--theme" <> "carbon--theme--" +:+ a.
Proof.
  intros H. apply (f_equal String.length) in H.
  rewrite string_length_app in H. cbn in H. lia.
Qed.

(** ** The theme maps module *)

Section ThemeMaps.

Variable formatTokenName : string -> string.

Lemma theme_properties_bindings (theme : js_object string) :
  NoDup (Object_keys theme) ->
  theme_properties formatTokenName theme = map (map_entry formatTokenName) theme.
Proof.
  intros Hnd. unfold theme_properties, Object_keys. rewrite map_map.
  apply map_ext_in. intros [token color] Hin. unfold map_entry. simpl.
  apply list_elem_of_In in Hin. by rewrite (js_get_NoDup _ _ _ Hnd Hin).
Qed.

Lemma themeMaps_theme_nodes themes :
  themeMaps formatTokenName themes
  = theme_nodes formatTokenName themes (Object_keys themes).
Proof. reflexivity. Qed.

Lemma theme_nodes_declares themes names name :
  NoDup names ->
  List.filter (declares_map ("carbon--theme--" +:+ name))
              (theme_nodes formatTokenName themes names)
  = if bool_decide (name ∈ names)
    then [theme_variable formatTokenName name (default [] (js_get themes name))]
    else [].
Proof.
  induction names as [|n names IH]; intros Hnd; [done|].
  apply NoDup_cons in Hnd as [Hn Hnd]. cbn [theme_nodes flat_map app List.filter].
  fold (theme_nodes formatTokenName themes names). rewrite (IH Hnd).
  cbn [theme_comment declares_map theme_variable].
  destruct (String.eqb_spec ("carbon--theme--" +:+ name) ("carbon--theme--" +:+ n))
    as [Heq|Hne].
  - apply theme_name_inj in Heq as ->.
    rewrite (bool_decide_eq_false_2 _ Hn).
    rewrite bool_decide_eq_true_2; [done | left].
  - assert (name <> n) by congruence.
    destruct (bool_decide_reflect (name ∈ names)) as [Hin|Hin].
    + rewrite bool_decide_eq_true_2; [done | by right].
    + rewrite bool_decide_eq_false_2; [done|].
      rewrite not_elem_of_cons. done.
Qed.

Lemma theme_nodes_assigns themes names x :
  (forall n, n ∈ names -> x <> "carbon--theme--" +:+ n) ->
  List.filter (assigns x) (theme_nodes formatTokenName themes names) = [].
Proof.
  induction names as [|n names IH]; intros Hx; [done|].
  cbn [theme_nodes flat_map app List.filter theme_comment theme_variable assigns].
  fold (theme_nodes formatTokenName themes names).
  destruct (String.eqb_spec x ("carbon--theme--" +:+ n)) as [Heq|_].
  - exfalso. apply (Hx n); [left | done].
  - apply IH. intros n' Hn'. apply Hx. by right.
Qed.

Lemma theme_nodes_split themes names name :
  name ∈ names ->
  exists before after,
    theme_nodes formatTokenName themes names
    = before ++ [theme_comment name;
                 theme_variable formatTokenName name (default [] (js_get themes name))]
             ++ after.
Proof.
  intros Hin. apply list_elem_of_split in Hin as (l1 & l2 & ->).
  exists (theme_nodes formatTokenName themes l1), (theme_nodes formatTokenName themes l2).
  unfold theme_nodes. rewrite flat_map_app. reflexivity.
Qed.

End ThemeMaps.

(** ** A run in which every collaborator answers *)

Lemma build_returns formatTokenName themes tokenColors (w : world)
      text md h md' h' code_tokens code_mixins code_maps :
  fs_readFileSync w METADATA_FILE = Returned text ->
  yaml_safeLoad w text = Returned (md, h) ->
  transformMetadata formatTokenName md h = (Returned md', h') ->
  fs_ensureDir w SCSS_DIR = Returned tt ->
  generate w (tokensFile formatTokenName tokenColors md' h') = Returned code_tokens ->
  generate w (mixinsFile formatTokenName tokenColors) = Returned code_mixins ->
  generate w (themeMapsFile formatTokenName themes) = Returned code_maps ->
  fs_writeFile w TOKENS_ENTRYPOINT code_tokens = Returned tt ->
  fs_writeFile w MIXINS_ENTRYPOINT code_mixins = Returned tt ->
  fs_writeFile w MAPS_ENTRYPOINT code_maps = Returned tt ->
  build formatTokenName themes tokenColors w []
  = (Returned tt,
     [ reporter_info "Building scss files for themes...";
       ensured_dir SCSS_DIR;
       wrote_file TOKENS_ENTRYPOINT code_tokens;
       wrote_file MIXINS_ENTRYPOINT code_mixins;
       wrote_file MAPS_ENTRYPOINT code_maps;
       reporter_success "Done! 🎉" ]).
Proof.
  intros Hread Hload Htransform Hdir Hg1 Hg2 Hg3 Hw1 Hw2 Hw3.
  unfold build, write_document, mbind, M_bind, answer, emit, assemble. simpl.
  rewrite Hread, Hload. simpl. rewrite Htransform. simpl.
  rewrite Hdir, Hg1, Hw1. simpl. rewrite Hg2, Hw2. simpl. rewrite Hg3, Hw3.
  reflexivity.
Qed.

(** ** The documents *)

(** C6: for every theme of the theme table, the theme-maps module holds
    exactly one map-literal declaration for it. The declaration is a
    [!default] assignment to [carbon--theme--<name>], it directly follows the
    documentation comment that names the theme ([Carbon's <name> color
    theme], of type Map, public, in the group [@carbon/themes]), and its
    entries are the bindings of the theme's own table, in the order of that
    table: the key is the formatted token name and the value the color of
    the table. The theme table and each theme are objects, so their keys are
    distinct. *)
Theorem themeMaps_one_map_per_theme
    (formatTokenName : string -> string) (themes : js_object (js_object string))
    (name : string) (theme : js_object string) :
  NoDup (Object_keys themes) ->
  NoDup (Object_keys theme) ->
  js_get themes name = Some theme ->
  let declaration :=
    Assignment (Identifier ("carbon--theme--" +:+ name))
               (SassMap (map (fun binding : string * string =>
                                SassMapProperty (Identifier (formatTokenName binding.1))
                                                (SassColor binding.2))
                             theme))
               true false in
  List.filter (declares_map ("carbon--theme--" +:+ name))
              (children (themeMapsFile formatTokenName themes))
  = [declaration]
  /\ exists before after,
       children (themeMapsFile formatTokenName themes)
       = before
         ++ [Comment ("/ Carbon's " +:+ name +:+ " color theme
/ @type Map
/ @access public
/ @group @carbon/themes");
             declaration]
         ++ after.
Proof.
  intros Hthemes Htheme Hget declaration.
  assert (Hin : name ∈ Object_keys themes).
  { apply js_get_elem_of in Hget. apply (list_elem_of_fmap_2 fst) in Hget. exact Hget. }
  assert (Hdecl : theme_variable formatTokenName name (default [] (js_get themes name))
                  = declaration).
  { rewrite Hget. unfold theme_variable, declaration. simpl.
    by rewrite (theme_properties_bindings _ _ Htheme). }
  unfold themeMapsFile. cbn [children]. rewrite themeMaps_theme_nodes. split.
  - cbn [app List.filter FILE_BANNER declares_map]. rewrite List.filter_app.
    rewrite (theme_nodes_declares _ _ _ _ Hthemes).
    rewrite (bool_decide_eq_true_2 _ Hin), Hdecl.
    cbn [List.filter default_theme_comment default_theme_alias declares_map].
    reflexivity.
  - destruct (theme_nodes_split formatTokenName themes _ _ Hin) as (b & a & ->).
    exists ([FILE_BANNER] ++ b), (a ++ [default_theme_comment; default_theme_alias]).
    rewrite Hdecl. by rewrite <- !app_assoc.
Qed.

Lemma themeMaps_one_map_per_theme_witness :
  List.filter (declares_map "carbon--theme--white")
              (children (themeMapsFile Sample.formatTokenName Sample.themes))
  = [Assignment (Identifier "carbon--theme--white")
                (SassMap [SassMapProperty (Identifier "interactive-01")
                                          (SassColor "#0f62fe")])
                true false]
  /\ exists before after,
       children (themeMapsFile Sample.formatTokenName Sample.themes)
       = before
         ++ [Comment "/ Carbon's white color theme
/ @type Map
/ @access public
/ @group @carbon/themes";
             Assignment (Identifier "carbon--theme--white")
                        (SassMap [SassMapProperty (Identifier "interactive-01")
                                                  (SassColor "#0f62fe")])
                        true false]
         ++ after.
Proof.
  refine (themeMaps_one_map_per_theme Sample.formatTokenName Sample.themes
            "white" [("interactive01", "#0f62fe")] _ _ _).
  - by_computation.
  - by_computation.
  - reflexivity.
Defined.

(** C8: whatever the theme table holds, the theme-maps module ends with the
    documentation comment of the default theme and the [!default] assignment
    of [carbon--theme--white] to [carbon--theme], and this is the only
    assignment to [carbon--theme]. A table without a [white] theme gets the
    same alias although the module then declares no [carbon--theme--white];
    the run still returns and writes the module when the collaborators
    answer. *)
Theorem default_theme_alias_unconditional
    (formatTokenName : string -> string) (themes : js_object (js_object string)) :
  let file := children (themeMapsFile formatTokenName themes) in
  let alias_node :=
    Assignment (Identifier "carbon--theme") (Identifier "carbon--theme--white")
               true false in
  (exists before, file = before ++ [default_theme_comment; alias_node])
  /\ List.filter (assigns "carbon--theme") file = [alias_node]
  /\ (js_get themes "white" = None ->
      List.filter (assigns "carbon--theme--white") file = [])
  /\ (forall tokenColors (w : world) text md h md' h' code_tokens code_mixins code_maps,
        fs_readFileSync w METADATA_FILE = Returned text ->
        yaml_safeLoad w text = Returned (md, h) ->
        transformMetadata formatTokenName md h = (Returned md', h') ->
        fs_ensureDir w SCSS_DIR = Returned tt ->
        generate w (tokensFile formatTokenName tokenColors md' h') = Returned code_tokens ->
        generate w (mixinsFile formatTokenName tokenColors) = Returned code_mixins ->
        generate w (themeMapsFile formatTokenName themes) = Returned code_maps ->
        fs_writeFile w TOKENS_ENTRYPOINT code_tokens = Returned tt ->
        fs_writeFile w MIXINS_ENTRYPOINT code_mixins = Returned tt ->
        fs_writeFile w MAPS_ENTRYPOINT code_maps = Returned tt ->
        (build formatTokenName themes tokenColors w []).1 = Returned tt
        /\ wrote_file MAPS_ENTRYPOINT code_maps
           ∈ (build formatTokenName themes tokenColors w []).2).
Proof.
  intros file alias_node. subst file alias_node.
  unfold themeMapsFile. cbn [children]. rewrite themeMaps_theme_nodes.
  split; [|split; [|split]].
  - exists ([FILE_BANNER] ++ theme_nodes formatTokenName themes (Object_keys themes)).
    by rewrite <- app_assoc.
  - cbn [app List.filter FILE_BANNER assigns]. rewrite List.filter_app.
    rewrite theme_nodes_assigns; [reflexivity|].
    intros n _. apply theme_name_not_default.
  - intros Hnone. apply js_get_None in Hnone.
    cbn [app List.filter FILE_BANNER assigns]. rewrite List.filter_app.
    rewrite theme_nodes_assigns; [reflexivity|].
    intros n Hn Heq. apply theme_name_inj in Heq as <-. done.
  - intros * Hread Hload Htransform Hdir Hg1 Hg2 Hg3 Hw1 Hw2 Hw3.
    rewrite (build_returns _ _ _ _ _ _ _ _ _ _ _ _
               Hread Hload Htransform Hdir Hg1 Hg2 Hg3 Hw1 Hw2 Hw3).
    split; [reflexivity|]. simpl. set_solver.
Qed.

(** A table that lacks the default theme: the alias is emitted all the same
    and points at a map that the module does not declare, and the run
    returns. *)
Lemma default_theme_alias_unconditional_witness :
  let themes := [("g90", [("interactive01", "#4589ff")])] in
  List.filter (assigns "carbon--theme")
              (children (themeMapsFile Sample.formatTokenName themes))
  = [Assignment (Identifier "carbon--theme") (Identifier "carbon--theme--white")
                true false]
  /\ List.filter (assigns "carbon--theme--white")
                 (children (themeMapsFile Sample.formatTokenName themes))
     = []
  /\ (build Sample.formatTokenName themes Sample.tokenColors Sample.friendly []).1
     = Returned tt.
Proof.
  intros themes.
  pose proof (default_theme_alias_unconditional Sample.formatTokenName themes)
    as (_ & Hone & Hdangling & Hrun).
  split; [exact Hone|]. split; [apply Hdangling; reflexivity|].
  refine (proj1 (Hrun Sample.tokenColors Sample.friendly _ _ _ _ _ _ _ _
                      eq_refl eq_refl eq_refl eq_refl eq_refl eq_refl eq_refl
                      eq_refl eq_refl eq_refl)).
Defined.

(** ** The token defaults module *)

Lemma token_block_assignments formatTokenName md h token :
  List.filter is_Assignment (token_block formatTokenName md h token)
  = [default_assignment formatTokenName token].
Proof.
  unfold token_block, filter_Boolean.
  destruct (tokenData md h token) as [[n [l|] [[|c a]|] [|]]|]; reflexivity.
Qed.

(** The assignments to one variable among nodes made one per token, when
    the tokens have distinct variables. *)
Lemma filter_assigns_absent (mk : string -> node) (key : string -> string) ts x :
  (forall t, assigns x (mk t) = String.eqb x (key t)) ->
  x ∉ map key ts ->
  List.filter (assigns x) (map mk ts) = [].
Proof.
  intros Hmk. induction ts as [|t0 ts IH]; [reflexivity|].
  simpl. intros [Hne Hx]%not_elem_of_cons. rewrite Hmk.
  destruct (String.eqb_spec x (key t0)); [done | by apply IH].
Qed.

Lemma filter_assigns_unique (mk : string -> node) (key : string -> string) ts t :
  (forall x t', assigns x (mk t') = String.eqb x (key t')) ->
  NoDup (map key ts) ->
  t ∈ ts ->
  List.filter (assigns (key t)) (map mk ts) = [mk t].
Proof.
  intros Hmk. induction ts as [|t0 ts IH]; intros Hnd Hin.
  - by apply elem_of_nil in Hin.
  - simpl in Hnd. apply NoDup_cons in Hnd as [Ht0 Hnd]. simpl. rewrite Hmk.
    destruct (String.eqb_spec (key t) (key t0)) as [Heq|Hne].
    + rewrite (filter_assigns_absent mk key); [| by intros; apply Hmk | by rewrite Heq].
      apply elem_of_cons in Hin as [->|Hin]; [reflexivity|].
      exfalso. apply Ht0. rewrite <- Heq. by apply list_elem_of_fmap_2.
    + apply elem_of_cons in Hin as [->|Hin]; [done | by apply IH].
Qed.

Lemma token_blocks_assigns formatTokenName md h ts x :
  List.filter (assigns x) (flat_map (token_block formatTokenName md h) ts)
  = List.filter (assigns x) (map (default_assignment formatTokenName) ts).
Proof.
  induction ts as [|t ts IH]; [reflexivity|].
  cbn [flat_map map]. rewrite List.filter_app, IH.
  change (default_assignment formatTokenName t :: map (default_assignment formatTokenName) ts)
    with ([default_assignment formatTokenName t]
          ++ map (default_assignment formatTokenName) ts).
  rewrite List.filter_app. f_equal.
  unfold token_block, filter_Boolean.
  destruct (tokenData md h t) as [[n [l|] [[|c a]|] [|]]|]; reflexivity.
Qed.

(** C1: the assignments of the Token Defaults module are, in the order of the
    canonical token list, one per token of that list: a [!default]
    assignment to the variable named by the formatted token name, initialized
    by [map-get] of that name in the default map [carbon--theme]. This holds
    for every metadata document. When the tokens of the list have distinct
    formatted names, the module holds exactly one assignment to the variable
    of each token. *)
Theorem tokensFile_one_default_per_token
    (formatTokenName : string -> string) (tokenColors : list string)
    (md : metadata) (h : heap) :
  let file := children (tokensFile formatTokenName tokenColors md h) in
  let assignment token :=
    Assignment (Identifier (formatTokenName token))
               (CallExpression (Identifier "map-get")
                               [Identifier "carbon--theme";
                                SassString (formatTokenName token)])
               true false in
  List.filter is_Assignment file = map assignment tokenColors
  /\ (NoDup (map formatTokenName tokenColors) ->
      forall token, token ∈ tokenColors ->
        List.filter (assigns (formatTokenName token)) file = [assignment token]).
Proof.
  intros file assignment. subst file. unfold tokensFile.
  cbn [children app List.filter FILE_BANNER is_Assignment assigns]. split.
  - induction tokenColors as [|token rest IH]; [reflexivity|].
    cbn [flat_map map]. rewrite List.filter_app, token_block_assignments, IH.
    reflexivity.
  - intros Hnd token Hin. rewrite token_blocks_assigns.
    apply (filter_assigns_unique (default_assignment formatTokenName) formatTokenName);
      [reflexivity | exact Hnd | exact Hin].
Qed.

(** The token defaults of the spec's example, with the sample metadata
    after its transformation. *)
Lemma tokensFile_one_default_per_token_witness :
  List.filter (assigns "interactive-01")
    (children (tokensFile Sample.formatTokenName Sample.tokenColors
                 Sample.sample_metadata
                 (transformMetadata Sample.formatTokenName Sample.sample_metadata
                                    Sample.sample_heap).2))
  = [Assignment (Identifier "interactive-01")
                (CallExpression (Identifier "map-get")
                                [Identifier "carbon--theme"; SassString "interactive-01"])
                true false].
Proof.
  refine (proj2 (tokensFile_one_default_per_token Sample.formatTokenName
                   Sample.tokenColors Sample.sample_metadata _) _ "interactive01" _).
  - by_computation.
  - by_computation.
Defined.

Example tokensFile_sample :
  children (tokensFile Sample.formatTokenName Sample.tokenColors Sample.sample_metadata
              (transformMetadata Sample.formatTokenName Sample.sample_metadata
                                 Sample.sample_heap).2)
  = [ FILE_BANNER;
      SassImport "./theme-maps";
      Comment "/ Primary interactive color, see `$interactive-01`";
      token_type_comment;
      Comment "/ @alias brand-01";
      Assignment (Identifier "interactive-01")
                 (CallExpression (Identifier "map-get")
                                 [Identifier "carbon--theme"; SassString "interactive-01"])
                 true false ].
Proof. vm_compute. reflexivity. Qed.

(** ** The theme-application mixin *)

Lemma before_content_assignments formatTokenName tokenColors rest :
  before_content (map (global_assignment formatTokenName) tokenColors ++ AtContent :: rest)
  = map (global_assignment formatTokenName) tokenColors.
Proof. induction tokenColors as [|t ts IH]; [reflexivity|]. simpl. by rewrite IH. Qed.

Lemma after_content_assignments formatTokenName tokenColors rest :
  after_content (map (global_assignment formatTokenName) tokenColors ++ AtContent :: rest)
  = rest.
Proof. induction tokenColors as [|t ts IH]; [reflexivity|]. simpl. by rewrite IH. Qed.

(** C2: in the mixins module of a run, whatever the theme table, the body of
    the one mixin holds before its [@content] exactly the global
    reassignments of the canonical tokens, one per token and in the order of
    the canonical list: each assigns, with [!global], [map-get] of the
    formatted token name in the parameter [theme] to the variable of that
    name. No assignment follows the [@content]. When the tokens of the list
    have distinct formatted names, exactly one statement before the
    [@content] assigns to the variable of each token. *)
Theorem themeMixin_one_global_per_token
    (formatTokenName : string -> string) (tokenColors : list string)
    (themes : js_object (js_object string)) (md : metadata) (h : heap) :
  let mixins := doc_mixins (assemble formatTokenName themes tokenColors md h) in
  let assignment token :=
    Assignment (Identifier (formatTokenName token))
               (CallExpression (Identifier "map-get")
                               [Identifier "theme"; SassString (formatTokenName token)])
               false true in
  map before_content (mixin_bodies mixins) = [map assignment tokenColors]
  /\ map (fun body => List.filter is_Assignment (after_content body))
         (mixin_bodies mixins)
     = [[]]
  /\ (NoDup (map formatTokenName tokenColors) ->
      forall token, token ∈ tokenColors ->
        map (fun body => List.filter (assigns (formatTokenName token))
                                     (before_content body))
            (mixin_bodies mixins)
        = [[assignment token]]).
Proof.
  cbn [assemble doc_mixins mixinsFile themeMixin children mixin_bodies app flat_map
       FILE_BANNER themeMixin_comment themeMixin_definition themeMixin_body map].
  rewrite before_content_assignments, after_content_assignments.
  split; [reflexivity|]. split; [reflexivity|].
  intros Hnd token Hin. do 2 f_equal.
  apply (filter_assigns_unique (global_assignment formatTokenName) formatTokenName);
    [reflexivity | exact Hnd | exact Hin].
Qed.

(** The mixin of the spec's example, for two different theme tables. *)
Lemma themeMixin_one_global_per_token_witness :
  let assignment :=
    Assignment (Identifier "interactive-01")
               (CallExpression (Identifier "map-get")
                               [Identifier "theme"; SassString "interactive-01"])
               false true in
  map before_content
      (mixin_bodies (doc_mixins (assemble Sample.formatTokenName Sample.themes
                                          Sample.tokenColors Sample.sample_metadata
                                          Sample.sample_heap)))
  = [[assignment]]
  /\ map before_content
         (mixin_bodies (doc_mixins (assemble Sample.formatTokenName []
                                             Sample.tokenColors Sample.sample_metadata
                                             Sample.sample_heap)))
     = [[assignment]].
Proof.
  split.
  - exact (proj1 (themeMixin_one_global_per_token Sample.formatTokenName
                    Sample.tokenColors Sample.themes Sample.sample_metadata
                    Sample.sample_heap)).
  - exact (proj1 (themeMixin_one_global_per_token Sample.formatTokenName
                    Sample.tokenColors [] Sample.sample_metadata Sample.sample_heap)).
Defined.

(** ** The pattern built from the token names *)

Lemma string_forallb_app p (a b : string) :
  string_forallb p (a +:+ b) = string_forallb p a && string_forallb p b.
Proof.
  induction a as [|c a IH]; [reflexivity|].
  change (p c && string_forallb p (a +:+ b)
          = p c && string_forallb p a && string_forallb p b).
  by rewrite IH, andb_assoc.
Qed.

Lemma plain_literal_disjunction s : plain s = true -> literal_disjunction s = true.
Proof.
  unfold plain, literal_disjunction. induction s as [|c s IH]; [done|]. simpl.
  intros [Hc Hs]%andb_prop. rewrite Hc, (IH Hs). reflexivity.
Qed.

Lemma join_literal_disjunction names :
  Forall (fun n => plain n = true) names ->
  literal_disjunction (join "|" names) = true.
Proof.
  induction 1 as [|n names Hn Hnames IH]; [reflexivity|].
  destruct names as [|n' names]; [by apply plain_literal_disjunction|].
  change (join "|" (n :: n' :: names)) with (n +:+ "|" +:+ join "|" (n' :: names)).
  pose proof (plain_literal_disjunction _ Hn) as Hn'.
  unfold literal_disjunction in *. rewrite !string_forallb_app.
  rewrite Hn', IH. reflexivity.
Qed.

Lemma alternatives_plain_app a s :
  plain a = true ->
  alternatives (a +:+ "|" +:+ s) = a :: alternatives s.
Proof.
  unfold plain. induction a as [|c a IH]; [reflexivity|]. simpl.
  intros [Hc Ha]%andb_prop.
  change (alternatives (String c (a +:+ "|" +:+ s)) = String c a :: alternatives s).
  simpl. rewrite (IH Ha).
  destruct (Ascii.eqb_spec c "|") as [->|_]; [discriminate Hc | reflexivity].
Qed.

Lemma alternatives_plain a : plain a = true -> alternatives a = [a].
Proof.
  unfold plain. induction a as [|c a IH]; [reflexivity|]. simpl.
  intros [Hc Ha]%andb_prop. rewrite (IH Ha).
  destruct (Ascii.eqb_spec c "|") as [->|_]; [discriminate Hc | reflexivity].
Qed.

(** For names without pattern syntax the alternatives of [namesRegEx] are
    the names, in declaration order. *)
Lemma RegExp_new_names_plain n names :
  Forall (fun n => plain n = true) (n :: names) ->
  RegExp_new (join "|" (n :: names)) = Returned {| alts := n :: names |}.
Proof.
  intros Hplain. unfold RegExp_new. rewrite (join_literal_disjunction _ Hplain).
  do 2 f_equal. revert n Hplain. induction names as [|n' names IH]; intros n Hplain.
  - apply alternatives_plain. by inversion Hplain.
  - change (join "|" (n :: n' :: names)) with (n +:+ "|" +:+ join "|" (n' :: names)).
    inversion Hplain as [|? ? Hn Hrest]; subst.
    rewrite (alternatives_plain_app _ _ Hn). f_equal. by apply IH.
Qed.

(** Without names the pattern is empty and matches the empty string. *)
Lemma RegExp_new_no_names : RegExp_new (join "|" []) = Returned {| alts := [EmptyString] |}.
Proof. reflexivity. Qed.

Lemma replace_no_match alternatives f s :
  no_match alternatives s = true -> replace_from alternatives f 0 s = s.
Proof.
  induction s as [|c s IH]; simpl.
  - destruct (first_match alternatives EmptyString); [discriminate | reflexivity].
  - destruct (first_match alternatives (String c s)); [discriminate|].
    intros H. by rewrite (IH H).
Qed.

(** ** [transformMetadata] *)

Section Transform.

Variable formatTokenName : string -> string.

Lemma rewrite_token_name rx rm h r r' :
  name (objects (rewrite_token formatTokenName rx rm h r) r') = name (objects h r').
Proof.
  unfold rewrite_token.
  destruct (role (objects h r)), (alias (objects h r)) as [[|c a]|]; simpl;
    try reflexivity; by destruct (Nat.eqb_spec r' r) as [->|].
Qed.

Lemma rewrite_token_role rx rm h r r' :
  role (objects (rewrite_token formatTokenName rx rm h r) r') = role (objects h r').
Proof.
  unfold rewrite_token.
  destruct (role (objects h r)), (alias (objects h r)) as [[|c a]|]; simpl;
    try reflexivity; by destruct (Nat.eqb_spec r' r) as [->|].
Qed.

Lemma rewrite_token_alias rx rm h r r' :
  alias (objects (rewrite_token formatTokenName rx rm h r) r')
  = if Nat.eqb r' r
    then format_alias formatTokenName (alias (objects h r'))
    else alias (objects h r').
Proof.
  unfold rewrite_token, format_alias.
  destruct (Nat.eqb_spec r' r) as [->|Hne].
  - destruct (role (objects h r)), (alias (objects h r)) as [[|c a]|] eqn:Ha; simpl;
      rewrite ?Nat.eqb_refl, ?Ha; reflexivity.
  - apply Nat.eqb_neq in Hne.
    destruct (role (objects h r)), (alias (objects h r)) as [[|c a]|]; simpl;
      rewrite ?Hne; reflexivity.
Qed.

Lemma foldl_rewrite_name rx rm refs h r :
  name (objects (foldl (rewrite_token formatTokenName rx rm) h refs) r)
  = name (objects h r).
Proof.
  revert h. induction refs as [|r0 refs IH]; intros h; [reflexivity|]. simpl.
  by rewrite IH, rewrite_token_name.
Qed.

Lemma foldl_rewrite_alias rx rm refs h r :
  alias (objects (foldl (rewrite_token formatTokenName rx rm) h refs) r)
  = Nat.iter (positions r refs) (format_alias formatTokenName) (alias (objects h r)).
Proof.
  revert h. induction refs as [|r0 refs IH]; intros h; [reflexivity|].
  simpl. rewrite IH, rewrite_token_alias. unfold positions. simpl.
  destruct (Nat.eqb r r0); [|reflexivity].
  simpl length. by rewrite Nat.iter_succ_r.
Qed.

Lemma token_names_foldl rx rm refs refs' h :
  token_names (foldl (rewrite_token formatTokenName rx rm) h refs') refs
  = token_names h refs.
Proof.
  unfold token_names. apply map_ext. intros r. apply foldl_rewrite_name.
Qed.

Lemma visit_token_returned rx rm h r u h' :
  visit_token formatTokenName rx rm h r = (Returned u, h') ->
  h' = rewrite_token formatTokenName rx rm h r.
Proof.
  unfold visit_token. destruct (role (objects h r)) as [l|]; [|by intros [= _ <-]].
  destruct (role_kinds h l) as [| |index]; [by intros [= _ <-] | discriminate |].
  destruct (Nat.ltb index (length (arrays h l))); [discriminate | by intros [= _ <-]].
Qed.

(** A [forEach] that has not thrown has made every round. *)
Lemma forEach_tokens_returned rx rm refs h u h' :
  forEach_tokens formatTokenName rx rm h refs = (Returned u, h') ->
  h' = foldl (rewrite_token formatTokenName rx rm) h refs.
Proof.
  revert h. induction refs as [|r refs IH]; intros h; simpl; [by intros [= _ <-]|].
  destruct (visit_token formatTokenName rx rm h r) as [[u'|e|] h''] eqn:Hv;
    try discriminate.
  apply visit_token_returned in Hv as ->. apply IH.
Qed.

(** After [transformMetadata] has returned, the names are what they were
    and the [tokens] field is a sequence. *)
Lemma transformMetadata_returned md h md1 h1 :
  transformMetadata formatTokenName md h = (Returned md1, h1) ->
  md1 = md
  /\ exists refs rx,
       tokens md = TokensSequence refs
       /\ RegExp_new (join "|" (token_names h refs)) = Returned rx
       /\ h1 = foldl (rewrite_token formatTokenName rx
                        (build_replaceMap formatTokenName h refs)) h refs.
Proof.
  unfold transformMetadata. destruct (tokens md) as [| | |refs]; try discriminate.
  destruct (read_names h refs) as [[]|e|]; try discriminate.
  destruct (RegExp_new (join "|" (token_names h refs))) as [rx|e|] eqn:Hrx;
    try discriminate.
  destruct (forEach_tokens formatTokenName rx _ h refs) as [[u|e|] h'] eqn:Hloop;
    try discriminate.
  intros [= <- <-]. split; [reflexivity|]. exists refs, rx.
  repeat split; [done|]. by apply forEach_tokens_returned in Hloop.
Qed.

End Transform.

Section TransformProperties.

Variable formatTokenName : string -> string.

Lemma js_set_lookup (o : gmap string string) k v n :
  n <> "__proto__" ->
  js_set o k v !! n = if bool_decide (n = k) then Some v else o !! n.
Proof.
  intros Hn. unfold js_set. destruct (String.eqb_spec k "__proto__") as [->|_].
  - by rewrite bool_decide_eq_false_2.
  - destruct (decide (n = k)) as [->|Hne].
    + by rewrite bool_decide_eq_true_2, lookup_insert_eq.
    + by rewrite bool_decide_eq_false_2, lookup_insert_ne.
Qed.

Lemma build_replaceMap_lookup h refs n :
  n <> "__proto__" ->
  build_replaceMap formatTokenName h refs !! n
  = if bool_decide (n ∈ token_names h refs) then Some (formatTokenName n) else None.
Proof.
  intros Hn. unfold build_replaceMap.
  assert (forall (m : gmap string string),
             foldl (fun replaceMap r =>
                      js_set replaceMap (name (objects h r))
                             (formatTokenName (name (objects h r)))) m refs !! n
             = if bool_decide (n ∈ token_names h refs)
               then Some (formatTokenName n) else m !! n) as Hgen.
  { induction refs as [|r refs IH]; intros m; [reflexivity|].
    simpl. rewrite IH, (js_set_lookup _ _ _ _ Hn).
    destruct (bool_decide_reflect (n ∈ token_names h refs)) as [Hin|Hin].
    - rewrite bool_decide_eq_true_2; [done | by right].
    - destruct (decide (n = name (objects h r))) as [->|Hne].
      + rewrite !bool_decide_eq_true_2; [done | left | done].
      + rewrite !bool_decide_eq_false_2; [done | | done].
        rewrite not_elem_of_cons. done. }
  rewrite Hgen. by rewrite lookup_empty.
Qed.

(** The replacement of a declared name other than [__proto__]. *)
Lemma replacement_declared h refs n :
  n <> "__proto__" ->
  n ∈ token_names h refs ->
  replacement (build_replaceMap formatTokenName h refs) n
  = "`$" +:+ formatTokenName n +:+ "`".
Proof.
  intros Hn Hin. unfold replacement, js_read_text.
  destruct (String.eqb_spec n "__proto__"); [done|].
  rewrite (build_replaceMap_lookup _ _ _ Hn). by rewrite (bool_decide_eq_true_2 _ Hin).
Qed.

Lemma string_app_empty (s : string) : s +:+ EmptyString = s.
Proof.
  induction s as [|c s IH]; [reflexivity|].
  change (String c (s +:+ EmptyString) = String c s). by rewrite IH.
Qed.

Lemma string_app_assoc (a b c : string) : (a +:+ b) +:+ c = a +:+ b +:+ c.
Proof.
  induction a as [|x a IH]; [reflexivity|].
  change (String x ((a +:+ b) +:+ c) = String x (a +:+ b +:+ c)). by rewrite IH.
Qed.

(** A heap that equals [h1] entry by entry is left as it is by a round on
    an entry whose role lines hold no match and whose alias is formatted
    already. *)
Lemma rewrite_token_stable rx rm h1 h r :
  heap_equiv h h1 ->
  (forall l line, role (objects h1 r) = Some l -> line ∈ arrays h1 l ->
                  no_match (alts rx) line = true) ->
  (forall a, alias (objects h1 r) = Some a -> truthy (Some a) = true ->
             formatTokenName a = a) ->
  heap_equiv (rewrite_token formatTokenName rx rm h r) h1.
Proof.
  intros [Hobj Harr] Hrole Halias. unfold rewrite_token.
  rewrite (Hobj r).
  set (h' := match role (objects h1 r) with
             | Some l => set_array h l
                           (map (String_replace rx (replacement rm)) (arrays h l))
             | None => h
             end).
  assert (Hh' : heap_equiv h' h1).
  { subst h'. destruct (role (objects h1 r)) as [l|] eqn:Hl; [|by split].
    split; [exact Hobj|]. intros l'. simpl.
    destruct (Nat.eqb_spec l' l) as [->|_]; [|apply Harr].
    rewrite Harr. rewrite <- (map_id (arrays h1 l)) at 2.
    apply map_ext_in. intros line Hin. apply replace_no_match.
    apply (Hrole l line eq_refl). by apply list_elem_of_In. }
  destruct Hh' as [Hobj' Harr'].
  destruct (alias (objects h1 r)) as [a|] eqn:Ha; [|by split].
  destruct (truthy (Some a)) eqn:Ht; [|by split].
  rewrite (Halias a eq_refl Ht). split; [|exact Harr'].
  intros r'. simpl. destruct (Nat.eqb_spec r' r) as [->|_]; [|apply Hobj'].
  rewrite Hobj'. destruct (objects h1 r) as [n ro al d]. simpl in *. by subst.
Qed.

Lemma foldl_rewrite_stable rx rm h1 refs h :
  heap_equiv h h1 ->
  (forall r l line, r ∈ refs -> role (objects h1 r) = Some l -> line ∈ arrays h1 l ->
                    no_match (alts rx) line = true) ->
  (forall r a, r ∈ refs -> alias (objects h1 r) = Some a -> truthy (Some a) = true ->
               formatTokenName a = a) ->
  heap_equiv (foldl (rewrite_token formatTokenName rx rm) h refs) h1.
Proof.
  revert h. induction refs as [|r refs IH]; intros h Hh Hrole Halias; [exact Hh|].
  simpl. apply IH.
  - apply rewrite_token_stable; [exact Hh | |].
    + intros l line. apply Hrole. left.
    + intros a. apply Halias. left.
  - intros r' l line Hr'. apply Hrole. by right.
  - intros r' a Hr'. apply Halias. by right.
Qed.

End TransformProperties.

Section TransformFrame.

Variable formatTokenName : string -> string.

Lemma rewrite_token_deprecated rx rm h r r' :
  deprecated (objects (rewrite_token formatTokenName rx rm h r) r')
  = deprecated (objects h r').
Proof.
  unfold rewrite_token.
  destruct (role (objects h r)), (alias (objects h r)) as [[|c a]|]; simpl;
    try reflexivity; by destruct (Nat.eqb_spec r' r) as [->|].
Qed.

Lemma rewrite_token_other rx rm h r r' :
  r' <> r -> objects (rewrite_token formatTokenName rx rm h r) r' = objects h r'.
Proof.
  intros Hne%Nat.eqb_neq. unfold rewrite_token.
  destruct (role (objects h r)), (alias (objects h r)) as [[|c a]|]; simpl;
    rewrite ?Hne; reflexivity.
Qed.

Lemma rewrite_token_arrays rx rm h r l :
  arrays (rewrite_token formatTokenName rx rm h r) l
  = if bool_decide (role (objects h r) = Some l)
    then map (String_replace rx (replacement rm)) (arrays h l)
    else arrays h l.
Proof.
  unfold rewrite_token. destruct (role (objects h r)) as [l0|].
  - assert (Harr : arrays (set_array h l0 (map (String_replace rx (replacement rm))
                                               (arrays h l0))) l
                   = if bool_decide (Some l0 = Some l)
                     then map (String_replace rx (replacement rm)) (arrays h l)
                     else arrays h l).
    { simpl. destruct (Nat.eqb_spec l l0) as [->|Hne].
      - by rewrite bool_decide_eq_true_2.
      - rewrite bool_decide_eq_false_2; [done | congruence]. }
    destruct (alias (objects h r)) as [[|c a]|]; exact Harr.
  - rewrite bool_decide_eq_false_2 by discriminate.
    by destruct (alias (objects h r)) as [[|c a]|].
Qed.

Lemma foldl_rewrite_role rx rm refs h r :
  role (objects (foldl (rewrite_token formatTokenName rx rm) h refs) r)
  = role (objects h r).
Proof.
  revert h. induction refs as [|r0 refs IH]; intros h; [reflexivity|]. simpl.
  by rewrite IH, rewrite_token_role.
Qed.

Lemma foldl_rewrite_deprecated rx rm refs h r :
  deprecated (objects (foldl (rewrite_token formatTokenName rx rm) h refs) r)
  = deprecated (objects h r).
Proof.
  revert h. induction refs as [|r0 refs IH]; intros h; [reflexivity|]. simpl.
  by rewrite IH, rewrite_token_deprecated.
Qed.

Lemma foldl_rewrite_other rx rm refs h r :
  r ∉ refs ->
  objects (foldl (rewrite_token formatTokenName rx rm) h refs) r = objects h r.
Proof.
  revert h. induction refs as [|r0 refs IH]; intros h Hr; [reflexivity|].
  apply not_elem_of_cons in Hr as [Hne Hr]. simpl.
  by rewrite (IH _ Hr), rewrite_token_other.
Qed.

Lemma role_positions_rewrite rx rm h r0 l refs :
  role_positions (rewrite_token formatTokenName rx rm h r0) l refs
  = role_positions h l refs.
Proof.
  unfold role_positions. f_equal. apply List.filter_ext. intros r.
  by rewrite rewrite_token_role.
Qed.

Lemma foldl_rewrite_arrays rx rm refs h l :
  arrays (foldl (rewrite_token formatTokenName rx rm) h refs) l
  = Nat.iter (role_positions h l refs)
             (map (String_replace rx (replacement rm))) (arrays h l).
Proof.
  revert h. induction refs as [|r0 refs IH]; intros h; [reflexivity|].
  simpl. rewrite IH, role_positions_rewrite, rewrite_token_arrays.
  unfold role_positions. simpl.
  destruct (bool_decide (role (objects h r0) = Some l)); [|reflexivity].
  simpl length. by rewrite Nat.iter_succ_r.
Qed.

Lemma iter_map_length {A} (f : A -> A) n (xs : list A) :
  length (Nat.iter n (map f) xs) = length xs.
Proof. induction n as [|n IH]; [reflexivity|]. simpl. by rewrite length_map. Qed.

Lemma iter_fixed {A} (f : A -> A) n (x : A) : f x = x -> Nat.iter n f x = x.
Proof. intros Hx. induction n as [|n IH]; [reflexivity|]. simpl. by rewrite IH. Qed.

Lemma role_positions_none h l refs :
  (forall r, r ∈ refs -> role (objects h r) <> Some l) ->
  role_positions h l refs = 0.
Proof.
  unfold role_positions. induction refs as [|r refs IH]; intros Hno; [reflexivity|].
  simpl. rewrite bool_decide_eq_false_2 by (apply Hno; left).
  apply IH. intros r' Hr'. apply Hno. by right.
Qed.

End TransformFrame.

(** ** C10: where [transformMetadata] throws *)

(** C10, the claim as stated: a document with a [tokens] sequence can still
    make [transformMetadata] throw. The name of the token is an opening
    parenthesis; the pattern built from the names is [(], an unterminated
    group, and the constructor throws a SyntaxError. *)
Lemma transformMetadata_throws_on_a_sequence :
  tokens Docs.paren = TokensSequence [0]
  /\ transformMetadata Sample.formatTokenName Docs.paren Docs.paren_heap
     = (Thrown SyntaxError, Docs.paren_heap).
Proof. split; reflexivity. Qed.

(** [tokens: [null]] throws at [token.name], and a role that is a string
    throws at [token.role.forEach]. A line that is not a string throws at
    [role.replace], after the lines before it have been rewritten and before
    the alias is formatted. *)
Example ill_typed_documents_throw :
  transformMetadata Sample.formatTokenName Docs.null_element Docs.null_element_heap
  = (Thrown TypeError, Docs.null_element_heap)
  /\ transformMetadata Sample.formatTokenName Docs.scalar_role Docs.scalar_role_heap
     = (Thrown TypeError, Docs.scalar_role_heap)
  /\ (transformMetadata Sample.formatTokenName Docs.number_line
                        Docs.number_line_heap).1
     = Thrown TypeError
  /\ arrays (transformMetadata Sample.formatTokenName Docs.number_line
                               Docs.number_line_heap).2 0
     = ["see `$interactive-01`"; "42"]
  /\ alias (objects (transformMetadata Sample.formatTokenName Docs.number_line
                                       Docs.number_line_heap).2 0)
     = Some "brand01".
Proof. repeat split; vm_compute; reflexivity. Qed.

Section Faults.

Variable formatTokenName : string -> string.

Lemma read_names_null h refs r :
  r ∈ refs -> element_kinds h r = NullElement -> read_names h refs = Thrown TypeError.
Proof.
  intros Hr Hnull. unfold read_names.
  assert (Hex : existsb (fun r => match element_kinds h r with
                                  | NullElement => true
                                  | _ => false
                                  end) refs = true).
  { apply existsb_exists. exists r. split; [by apply list_elem_of_In | by rewrite Hnull]. }
  by rewrite Hex.
Qed.

Lemma read_names_entries h refs :
  (forall r, r ∈ refs -> element_kinds h r = EntryObject) ->
  read_names h refs = Returned tt.
Proof.
  intros Hall. unfold read_names.
  assert (Hno : forall p, (forall r, r ∈ refs -> p (element_kinds h r) = false) ->
                          existsb (fun r => p (element_kinds h r)) refs = false).
  { intros p Hp. induction refs as [|r refs IH]; [reflexivity|]. simpl.
    rewrite (Hp r) by left. apply IH.
    - intros r' Hr'. apply Hall. by right.
    - intros r' Hr'. apply Hp. by right. }
  rewrite (Hno (fun k => match k with NullElement => true | _ => false end))
    by (intros r Hr; by rewrite (Hall r Hr)).
  rewrite (Hno (fun k => match k with UntypedElement => true | _ => false end))
    by (intros r Hr; by rewrite (Hall r Hr)).
  reflexivity.
Qed.

Lemma faulty_role_rewrite rx rm h r l :
  faulty_role (rewrite_token formatTokenName rx rm h r) l = faulty_role h l.
Proof.
  assert (Hkinds : role_kinds (rewrite_token formatTokenName rx rm h r) = role_kinds h).
  { unfold rewrite_token.
    by destruct (role (objects h r)), (alias (objects h r)) as [[|c a]|]. }
  assert (Hlen : length (arrays (rewrite_token formatTokenName rx rm h r) l)
                 = length (arrays h l)).
  { unfold rewrite_token.
    destruct (role (objects h r)) as [l0|], (alias (objects h r)) as [[|c a]|]; simpl;
      try reflexivity; destruct (Nat.eqb_spec l l0) as [->|]; by rewrite ?length_map. }
  unfold faulty_role. by rewrite Hkinds, Hlen.
Qed.

Lemma visit_token_typed rx rm h r :
  (forall l, role (objects h r) = Some l -> faulty_role h l = false) ->
  visit_token formatTokenName rx rm h r
  = (Returned tt, rewrite_token formatTokenName rx rm h r).
Proof.
  intros Hok. unfold visit_token. destruct (role (objects h r)) as [l|]; [|reflexivity].
  specialize (Hok l eq_refl). unfold faulty_role in Hok.
  destruct (role_kinds h l) as [| |index]; [reflexivity | discriminate |].
  by rewrite Hok.
Qed.

Lemma visit_token_faulty rx rm h r l :
  role (objects h r) = Some l -> faulty_role h l = true ->
  exists h', visit_token formatTokenName rx rm h r = (Thrown TypeError, h').
Proof.
  intros Hl Hfault. unfold visit_token. rewrite Hl. unfold faulty_role in Hfault.
  destruct (role_kinds h l) as [| |index]; [discriminate | by eexists |].
  rewrite Hfault. by eexists.
Qed.

Lemma forEach_tokens_typed rx rm refs h :
  (forall r l, r ∈ refs -> role (objects h r) = Some l -> faulty_role h l = false) ->
  forEach_tokens formatTokenName rx rm h refs
  = (Returned tt, foldl (rewrite_token formatTokenName rx rm) h refs).
Proof.
  revert h. induction refs as [|r refs IH]; intros h Hok; [reflexivity|].
  simpl. rewrite visit_token_typed by (intros l; apply Hok; left).
  apply IH. intros r' l Hr'. rewrite rewrite_token_role, faulty_role_rewrite.
  apply Hok. by right.
Qed.

Lemma forEach_tokens_faulty rx rm refs h r l :
  r ∈ refs -> role (objects h r) = Some l -> faulty_role h l = true ->
  exists h', forEach_tokens formatTokenName rx rm h refs = (Thrown TypeError, h').
Proof.
  revert h. induction refs as [|r0 refs IH]; intros h Hr Hl Hfault.
  - by apply elem_of_nil in Hr.
  - simpl.
    destruct (role (objects h r0)) as [l0|] eqn:Hl0.
    + destruct (faulty_role h l0) eqn:Hf0.
      * destruct (visit_token_faulty rx rm h r0 l0 Hl0 Hf0) as [h' ->]. by eexists.
      * rewrite visit_token_typed by (intros l' Hl'; congruence).
        apply elem_of_cons in Hr as [->|Hr]; [congruence|].
        apply (IH _ Hr); by rewrite ?rewrite_token_role, ?faulty_role_rewrite.
    + rewrite visit_token_typed by (intros l' Hl'; congruence).
      apply elem_of_cons in Hr as [->|Hr]; [congruence|].
      apply (IH _ Hr); by rewrite ?rewrite_token_role, ?faulty_role_rewrite.
Qed.

End Faults.

(** C10, amended: when the [tokens] field of the document is not a sequence
    (missing, null or not an array), [transformMetadata] throws a TypeError
    and leaves the metadata as it was, and a run that loaded this document
    ends with that error after its first report, before it creates the
    directory, serializes or writes anything. A document with a [tokens]
    sequence can throw as well. A [null] element of the sequence throws a
    TypeError before anything is rewritten. When the elements are entry
    objects and their names hold no pattern syntax character, a truthy role
    that is not an array of strings throws a TypeError, and
    [transformMetadata] returns its argument exactly when there is no such
    role. *)
Theorem transformMetadata_partial
    (formatTokenName : string -> string) (md : metadata) (h : heap) :
  ((forall refs, tokens md <> TokensSequence refs) ->
   transformMetadata formatTokenName md h = (Thrown TypeError, h)
   /\ forall themes tokenColors (w : world) text,
        fs_readFileSync w METADATA_FILE = Returned text ->
        yaml_safeLoad w text = Returned (md, h) ->
        build formatTokenName themes tokenColors w []
        = (Thrown TypeError, [reporter_info "Building scss files for themes..."]))
  /\ (forall refs,
        tokens md = TokensSequence refs ->
        ((exists r, r ∈ refs /\ element_kinds h r = NullElement) ->
         transformMetadata formatTokenName md h = (Thrown TypeError, h))
        /\ ((forall r, r ∈ refs -> element_kinds h r = EntryObject) ->
            Forall (fun n => plain n = true) (token_names h refs) ->
            ((exists r l, r ∈ refs /\ role (objects h r) = Some l
                          /\ faulty_role h l = true) ->
             exists h', transformMetadata formatTokenName md h = (Thrown TypeError, h'))
            /\ ((forall r l, r ∈ refs -> role (objects h r) = Some l ->
                             faulty_role h l = false) ->
                exists h1, transformMetadata formatTokenName md h = (Returned md, h1)))).
Proof.
  split.
  - intros Hnot.
    assert (Ht : transformMetadata formatTokenName md h = (Thrown TypeError, h)).
    { unfold transformMetadata. destruct (tokens md) as [| | |refs] eqn:Hm; try reflexivity.
      by destruct (Hnot refs). }
    split; [exact Ht|]. intros themes tokenColors w text Hread Hload.
    unfold build, mbind, M_bind, answer, emit. simpl.
    rewrite Hread, Hload. simpl. rewrite Ht. reflexivity.
  - intros refs Hm. split.
    + intros (r & Hr & Hnull). unfold transformMetadata.
      by rewrite Hm, (read_names_null _ _ _ Hr Hnull).
    + intros Hentries Hplain. unfold transformMetadata.
      rewrite Hm, (read_names_entries _ _ Hentries).
      unfold RegExp_new. rewrite (join_literal_disjunction _ Hplain). split.
      * intros (r & l & Hr & Hl & Hfault).
        destruct (forEach_tokens_faulty formatTokenName
                    {| alts := alternatives (join "|" (token_names h refs)) |}
                    (build_replaceMap formatTokenName h refs) refs h r l Hr Hl Hfault)
          as [h' ->].
        by eexists.
      * intros Hok. rewrite (forEach_tokens_typed _ _ _ _ _ Hok). by eexists.
Qed.

Lemma transformMetadata_partial_witness :
  transformMetadata Sample.formatTokenName Docs.no_tokens Sample.sample_heap
  = (Thrown TypeError, Sample.sample_heap)
  /\ transformMetadata Sample.formatTokenName Docs.null_element Docs.null_element_heap
     = (Thrown TypeError, Docs.null_element_heap)
  /\ (exists h',
        transformMetadata Sample.formatTokenName Docs.scalar_role Docs.scalar_role_heap
        = (Thrown TypeError, h'))
  /\ exists h1,
       transformMetadata Sample.formatTokenName Sample.sample_metadata Sample.sample_heap
       = (Returned Sample.sample_metadata, h1).
Proof.
  split; [|split; [|split]].
  - refine (proj1 (proj1 (transformMetadata_partial Sample.formatTokenName
                            Docs.no_tokens Sample.sample_heap) _)).
    intros refs. discriminate.
  - refine (proj1 (proj2 (transformMetadata_partial Sample.formatTokenName
                            Docs.null_element Docs.null_element_heap) [0] eq_refl) _).
    exists 0. split; [left | reflexivity].
  - refine (proj1 (proj2 (proj2 (transformMetadata_partial Sample.formatTokenName
                                   Docs.scalar_role Docs.scalar_role_heap)
                                [0] eq_refl) _ _) _).
    + intros r _. reflexivity.
    + repeat constructor.
    + exists 0, 0. split; [left | split; reflexivity].
  - refine (proj2 (proj2 (proj2 (transformMetadata_partial Sample.formatTokenName
                                   Sample.sample_metadata Sample.sample_heap)
                                [0; 1] eq_refl) _ _) _).
    + intros r _. reflexivity.
    + repeat constructor.
    + intros r l _ _. reflexivity.
Defined.

(** ** C5: the alias field *)

(** C5, the claim as stated, fails for every formatter: with the tokens
    [brand01] and [interactive01], the alias [brand01] of [interactive01]
    becomes [formatTokenName "brand01"], without the marker that the
    rewriting of a role line puts around it. *)
Lemma alias_not_rewritten_like_role :
  ~ exists formatTokenName, alias_rewritten_like_role formatTokenName.
Proof.
  intros [fmt H].
  specialize (H Docs.aliased Docs.alias_heap [0; 1]
                {| alts := ["brand01"; "interactive01"] |} Docs.aliased
                (transformMetadata fmt Docs.aliased Docs.alias_heap).2 1 "brand01"
                eq_refl eq_refl eq_refl).
  assert (Hin : 1 ∈ [0; 1]) by set_solver.
  specialize (H Hin eq_refl).
  change (Some (fmt "brand01")
          = Some (replacement (build_replaceMap fmt Docs.alias_heap [0; 1]) "brand01"
                  +:+ EmptyString)) in H.
  rewrite replacement_declared in H; [|discriminate|left].
  injection H as H. apply (f_equal String.length) in H.
  rewrite !string_length_app in H. simpl in H. lia.
Qed.

(** C5, amended: [transformMetadata] replaces the alias of an entry by
    [formatTokenName] of the whole alias, with no marker, once for each
    position of the [tokens] sequence that holds the entry; a missing or
    empty alias stays as it is. So an entry that stands once in the sequence
    and has a non-empty alias [a] ends with the alias [formatTokenName a]. *)
Theorem transformMetadata_formats_alias
    (formatTokenName : string -> string) (md md1 : metadata) (h h1 : heap)
    (refs : list loc) (r : loc) :
  tokens md = TokensSequence refs ->
  transformMetadata formatTokenName md h = (Returned md1, h1) ->
  alias (objects h1 r)
  = Nat.iter (positions r refs) (format_alias formatTokenName) (alias (objects h r))
  /\ (positions r refs = 1 ->
      forall c a, alias (objects h r) = Some (String c a) ->
                  alias (objects h1 r) = Some (formatTokenName (String c a))).
Proof.
  intros Hm Ht.
  apply transformMetadata_returned in Ht as (-> & refs' & rx & Hm' & _ & ->).
  rewrite Hm in Hm'. injection Hm' as <-.
  rewrite foldl_rewrite_alias. split; [reflexivity|].
  intros -> c a ->. reflexivity.
Qed.

Lemma transformMetadata_formats_alias_witness :
  alias (objects (transformMetadata Sample.formatTokenName Docs.aliased
                                    Docs.alias_heap).2 1)
  = Some (Sample.formatTokenName "brand01").
Proof.
  refine (proj2 (transformMetadata_formats_alias Sample.formatTokenName
                   Docs.aliased Docs.aliased Docs.alias_heap _ [0; 1] 1
                   eq_refl eq_refl) eq_refl "b"%char "rand01" eq_refl).
Defined.

(** ** C3: applying [transformMetadata] twice *)

(** C3, the claim as stated, fails for every formatter. The only token is
    named by a backquote and its role line is a backquote. The first
    application wraps the formatted name in the marker, which is made of
    backquotes; the second application finds them in the line and wraps them
    once more, so the line grows. *)
Lemma transformMetadata_not_idempotent :
  ~ exists formatTokenName, transform_idempotent formatTokenName.
Proof.
  intros [fmt H].
  destruct (H Docs.backquote Docs.backquote_heap Docs.backquote _ eq_refl)
    as (h2 & Ht & _ & Harr).
  injection Ht as <-. specialize (Harr 0). cbn in Harr.
  set (rm := <["`" := fmt "`"]> (∅ : gmap string string)) in Harr.
  assert (Hrm : replacement rm "`" = "`$" +:+ fmt "`" +:+ "`").
  { unfold replacement, js_read_text, rm. simpl. by rewrite lookup_insert_eq. }
  assert (Hstep : forall f rest,
             replace_from ["`"] f 0 (String "`" (String "$" rest))
             = f "`" +:+ String "$" (replace_from ["`"] f 0 rest)) by reflexivity.
  rewrite string_app_empty, Hrm in Harr.
  change ("`$" +:+ fmt "`" +:+ "`") with (String "`" (String "$" (fmt "`" +:+ "`")))
    in Harr at 1.
  rewrite Hstep, Hrm in Harr.
  apply (f_equal (fun lines => String.length (List.hd EmptyString lines))) in Harr.
  cbn [List.hd] in Harr. rewrite !string_length_app in Harr. simpl in Harr. lia.
Qed.

(** With the sample formatter, which leaves [focus] as it is, the role line
    [focus] is wrapped by the first application and once more by the
    second. *)
Example role_wrapped_twice :
  let once := transformMetadata Sample.formatTokenName Docs.focus Docs.focus_heap in
  let twice := transformMetadata Sample.formatTokenName Docs.focus once.2 in
  arrays once.2 0 = ["`$focus`"] /\ arrays twice.2 0 = ["`$`$focus``"].
Proof. split; vm_compute; reflexivity. Qed.

(** The same happens to an alias with the sample formatter: [brand01]
    becomes [brand-01], and a second application formats that once more. *)
Example alias_formatted_twice :
  let once := transformMetadata Sample.formatTokenName Docs.aliased Docs.alias_heap in
  let twice := transformMetadata Sample.formatTokenName Docs.aliased once.2 in
  alias (objects once.2 1) = Some "brand-01"
  /\ alias (objects twice.2 1) = Some "brand--01".
Proof. split; vm_compute; reflexivity. Qed.

Section TransformAgain.

Variable formatTokenName : string -> string.

Lemma rewrite_token_element_kinds rx rm h r :
  element_kinds (rewrite_token formatTokenName rx rm h r) = element_kinds h.
Proof.
  unfold rewrite_token.
  by destruct (role (objects h r)), (alias (objects h r)) as [[|c a]|].
Qed.

Lemma foldl_rewrite_element_kinds rx rm refs h :
  element_kinds (foldl (rewrite_token formatTokenName rx rm) h refs) = element_kinds h.
Proof.
  revert h. induction refs as [|r refs IH]; intros h; [reflexivity|]. simpl.
  by rewrite IH, rewrite_token_element_kinds.
Qed.

Lemma faulty_role_foldl rx rm refs h l :
  faulty_role (foldl (rewrite_token formatTokenName rx rm) h refs) l = faulty_role h l.
Proof.
  revert h. induction refs as [|r refs IH]; intros h; [reflexivity|]. simpl.
  by rewrite IH, faulty_role_rewrite.
Qed.

(** A [forEach] that has returned has met no faulty role. *)
Lemma forEach_tokens_returned_typed rx rm refs h u h' :
  forEach_tokens formatTokenName rx rm h refs = (Returned u, h') ->
  forall r l, r ∈ refs -> role (objects h r) = Some l -> faulty_role h l = false.
Proof.
  intros Hret r l Hr Hl. destruct (faulty_role h l) eqn:Hf; [|reflexivity].
  destruct (forEach_tokens_faulty formatTokenName rx rm refs h r l Hr Hl Hf)
    as [h'' Hthrown].
  congruence.
Qed.

(** The second application makes every round again, with the pattern and
    the replacements of the names, which the first has not changed. *)
Lemma transformMetadata_again md h md1 h1 refs :
  transformMetadata formatTokenName md h = (Returned md1, h1) ->
  tokens md = TokensSequence refs ->
  transformMetadata formatTokenName md1 h1
  = (Returned md1,
     foldl (rewrite_token formatTokenName
              {| alts := alternatives (join "|" (token_names h1 refs)) |}
              (build_replaceMap formatTokenName h1 refs))
           h1 refs).
Proof.
  intros Ht Hm. unfold transformMetadata in Ht. rewrite Hm in Ht.
  destruct (read_names h refs) as [[]|e|] eqn:Hread; try discriminate.
  destruct (RegExp_new (join "|" (token_names h refs))) as [rx|e|] eqn:Hrx;
    try discriminate.
  destruct (forEach_tokens formatTokenName rx _ h refs) as [[u|e|] h'] eqn:Hloop;
    try discriminate.
  injection Ht as <- <-.
  pose proof (forEach_tokens_returned_typed _ _ _ _ _ _ Hloop) as Htyped.
  apply forEach_tokens_returned in Hloop as ->.
  set (rm := build_replaceMap formatTokenName h refs) in *.
  set (h1 := foldl (rewrite_token formatTokenName rx rm) h refs).
  assert (Hnames : token_names h1 refs = token_names h refs)
    by apply token_names_foldl.
  assert (Hread1 : read_names h1 refs = Returned tt).
  { unfold read_names, h1. rewrite foldl_rewrite_element_kinds. exact Hread. }
  assert (Hlit : literal_disjunction (join "|" (token_names h refs)) = true).
  { unfold RegExp_new in Hrx. destruct (literal_disjunction _); [reflexivity|].
    by destruct (unterminated_group _). }
  unfold transformMetadata. rewrite Hm, Hread1, Hnames. unfold RegExp_new.
  rewrite Hlit. rewrite forEach_tokens_typed; [reflexivity|].
  intros r l Hr Hl. unfold h1 in *. rewrite faulty_role_foldl.
  rewrite foldl_rewrite_role in Hl. by apply (Htyped r l).
Qed.

Lemma entry_eq (e1 e2 : token_entry) :
  name e1 = name e2 -> role e1 = role e2 -> alias e1 = alias e2 ->
  deprecated e1 = deprecated e2 -> e1 = e2.
Proof. destruct e1, e2. simpl. by intros -> -> -> ->. Qed.

(** What a run of rounds leaves, compared with the heap it started on. *)
Lemma foldl_rewrite_equiv rx rm refs h :
  heap_equiv (foldl (rewrite_token formatTokenName rx rm) h refs) h
  <-> (forall l, Nat.iter (role_positions h l refs)
                          (map (String_replace rx (replacement rm))) (arrays h l)
                 = arrays h l)
      /\ (forall r, Nat.iter (positions r refs) (format_alias formatTokenName)
                             (alias (objects h r))
                    = alias (objects h r)).
Proof.
  unfold heap_equiv. split.
  - intros [Hobj Harr]. split.
    + intros l. by rewrite <- (foldl_rewrite_arrays formatTokenName), Harr.
    + intros r. by rewrite <- (foldl_rewrite_alias formatTokenName rx rm), Hobj.
  - intros [Harr Hal]. split.
    + intros r. apply entry_eq.
      * apply foldl_rewrite_name.
      * apply foldl_rewrite_role.
      * by rewrite foldl_rewrite_alias.
      * apply foldl_rewrite_deprecated.
    + intros l. by rewrite foldl_rewrite_arrays.
Qed.

End TransformAgain.

(** C3, amended: a second application, to the result of the first, returns
    as well. It leaves that result unchanged exactly when each role array is
    a fixed point of the rewriting of its lines, applied once for each
    position of the sequence whose entry has the array as its role, and each
    alias is a fixed point of the formatting, applied once for each position
    that holds its entry. This is the case when no role line of an entry
    holds a match of the pattern built from the names and [formatTokenName]
    leaves every non-empty alias as it is. It is not the case when an entry
    that stands once in the sequence has a non-empty alias that
    [formatTokenName] changes, or when an array that is the role of one
    position has a line that the rewriting changes. *)
Theorem transformMetadata_twice
    (formatTokenName : string -> string) (md md1 : metadata) (h h1 : heap)
    (refs : list loc) :
  transformMetadata formatTokenName md h = (Returned md1, h1) ->
  tokens md = TokensSequence refs ->
  let rewrite :=
    String_replace {| alts := alternatives (join "|" (token_names h1 refs)) |}
                   (replacement (build_replaceMap formatTokenName h1 refs)) in
  exists h2,
    transformMetadata formatTokenName md1 h1 = (Returned md1, h2)
    /\ (heap_equiv h2 h1
        <-> (forall l, Nat.iter (role_positions h1 l refs) (map rewrite) (arrays h1 l)
                       = arrays h1 l)
            /\ (forall r, Nat.iter (positions r refs) (format_alias formatTokenName)
                                   (alias (objects h1 r))
                          = alias (objects h1 r)))
    /\ ((forall r l line,
            r ∈ refs -> role (objects h1 r) = Some l -> line ∈ arrays h1 l ->
            no_match (alternatives (join "|" (token_names h1 refs))) line = true) ->
        (forall r a,
            r ∈ refs -> alias (objects h1 r) = Some a -> truthy (Some a) = true ->
            formatTokenName a = a) ->
        heap_equiv h2 h1)
    /\ (forall r a,
           positions r refs = 1 -> alias (objects h1 r) = Some a ->
           truthy (Some a) = true -> formatTokenName a <> a ->
           ~ heap_equiv h2 h1)
    /\ (forall l line,
           role_positions h1 l refs = 1 -> line ∈ arrays h1 l ->
           rewrite line <> line ->
           ~ heap_equiv h2 h1).
Proof.
  intros Ht Hm rewrite.
  eexists. split; [exact (transformMetadata_again _ _ _ _ _ _ Ht Hm)|].
  split; [apply foldl_rewrite_equiv|]. split; [|split].
  - intros Hrole Halias. apply foldl_rewrite_stable; [by split | exact Hrole | exact Halias].
  - intros r a Hr Ha Htruthy Hne [Hobj _]. specialize (Hobj r).
    apply (f_equal alias) in Hobj. rewrite foldl_rewrite_alias, Hr, Ha in Hobj.
    change (format_alias formatTokenName (Some a) = Some a) in Hobj.
    unfold format_alias in Hobj. rewrite Htruthy in Hobj. congruence.
  - intros l line Hl Hline Hne [_ Harr]. specialize (Harr l).
    rewrite foldl_rewrite_arrays, Hl in Harr.
    change (map rewrite (arrays h1 l) = arrays h1 l) in Harr.
    apply Hne. apply list_elem_of_In in Hline.
    revert Harr Hline. generalize (arrays h1 l). intros ys.
    induction ys as [|y ys IH]; intros Hmap Hin; [done|].
    injection Hmap as Hy Hys. destruct Hin as [->|Hin]; [exact Hy | by apply IH].
Qed.

Lemma transformMetadata_twice_witness :
  (exists h2,
     transformMetadata Sample.formatTokenName Docs.settled
       (transformMetadata Sample.formatTokenName Docs.settled Docs.settled_heap).2
     = (Returned Docs.settled, h2)
     /\ heap_equiv h2
          (transformMetadata Sample.formatTokenName Docs.settled Docs.settled_heap).2)
  /\ exists h2,
       transformMetadata Sample.formatTokenName Docs.focus
         (transformMetadata Sample.formatTokenName Docs.focus Docs.focus_heap).2
       = (Returned Docs.focus, h2)
       /\ ~ heap_equiv h2
            (transformMetadata Sample.formatTokenName Docs.focus Docs.focus_heap).2.
Proof.
  split.
  - destruct (transformMetadata_twice Sample.formatTokenName Docs.settled Docs.settled
                Docs.settled_heap _ [0] eq_refl eq_refl)
      as (h2 & Ht & _ & Hsame & _).
    exists h2. split; [exact Ht|]. apply Hsame.
    + intros r l line Hr Hl Hline. apply list_elem_of_singleton in Hr as ->.
      vm_compute in Hl. injection Hl as <-.
      change (line ∈ ["see `$interactive-01`"]) in Hline.
      apply list_elem_of_singleton in Hline as ->. vm_compute. reflexivity.
    + intros r a Hr Ha _. apply list_elem_of_singleton in Hr as ->.
      vm_compute in Ha. injection Ha as <-. vm_compute. reflexivity.
  - destruct (transformMetadata_twice Sample.formatTokenName Docs.focus Docs.focus
                Docs.focus_heap _ [0] eq_refl eq_refl)
      as (h2 & Ht & _ & _ & _ & Hline).
    exists h2. split; [exact Ht|]. apply (Hline 0 "`$focus`").
    + vm_compute. reflexivity.
    + change ("`$focus`" ∈ ["`$focus`"]). left.
    + vm_compute. discriminate.
Defined.

(** ** C4: a name that is the beginning of another *)

(** C4: [hoverPrimary] is declared before [hoverPrimaryText]. In the role
    line [Text on hoverPrimaryText] the pattern matches [hoverPrimary], its
    first alternative, and the line keeps the rest of the longer name after
    the reference to the shorter one. With the two entries in the other
    order the longer name is replaced as a whole. *)
Theorem prefix_name_partially_replaced (formatTokenName : string -> string) :
  arrays (transformMetadata formatTokenName Docs.shorter_first Docs.hover_heap).2 0
  = ["Text on `$" +:+ formatTokenName "hoverPrimary" +:+ "`Text"]
  /\ arrays (transformMetadata formatTokenName Docs.longer_first Docs.hover_heap).2 0
     = ["Text on `$" +:+ formatTokenName "hoverPrimaryText" +:+ "`"].
Proof.
  split.
  - transitivity ["Text on `$" +:+ (formatTokenName "hoverPrimary" +:+ "`") +:+ "Text"];
      [vm_compute; reflexivity | by rewrite string_app_assoc].
  - transitivity ["Text on `$" +:+ (formatTokenName "hoverPrimaryText" +:+ "`")
                  +:+ EmptyString];
      [vm_compute; reflexivity | by rewrite string_app_empty].
Qed.

(** ** C9: what happens to a thrown error *)


Example friendly_run :
  main Sample.formatTokenName Sample.themes Sample.tokenColors Sample.friendly
  = {| trace := [ reporter_info "Building scss files for themes...";
                  ensured_dir SCSS_DIR;
                  wrote_file TOKENS_ENTRYPOINT "/* scss */";
                  wrote_file MIXINS_ENTRYPOINT "/* scss */";
                  wrote_file MAPS_ENTRYPOINT "/* scss */";
                  reporter_success "Done! 🎉" ];
       exitCode := None; unhandled_rejection := false |}.
Proof. vm_compute. reflexivity. Qed.

(** C9, the claim as stated: the metadata file cannot be read, [build]
    throws, and the process still exits with status 0, which is not a failed
    state. *)
Lemma failed_run_exits_with_status_zero :
  (build Sample.formatTokenName Sample.themes Sample.tokenColors Worlds.unreadable []).1
  = Thrown (ExternalError "ENOENT")
  /\ exit_status (main Sample.formatTokenName Sample.themes Sample.tokenColors
                       Worlds.unreadable)
     = 0.
Proof. split; reflexivity. Qed.

(** The events of a run of [build] that has thrown: an initial part of the
    events of a complete run, without the report of completion. *)
Lemma build_thrown_trace formatTokenName themes tokenColors (w : world) e tr :
  build formatTokenName themes tokenColors w [] = (Thrown e, tr) ->
  exists code_tokens code_mixins code_maps,
    tr `prefix_of` [ reporter_info "Building scss files for themes...";
                     ensured_dir SCSS_DIR;
                     wrote_file TOKENS_ENTRYPOINT code_tokens;
                     wrote_file MIXINS_ENTRYPOINT code_mixins;
                     wrote_file MAPS_ENTRYPOINT code_maps ].
Proof.
  unfold build, write_document, mbind, M_bind, answer, emit, assemble. simpl.
  destruct (fs_readFileSync w METADATA_FILE) as [text|e0|]; simpl;
    [|intros [= <- <-]; exists EmptyString, EmptyString, EmptyString; by eexists|done].
  destruct (yaml_safeLoad w text) as [[md h]|e0|]; simpl;
    [|intros [= <- <-]; exists EmptyString, EmptyString, EmptyString; by eexists|done].
  destruct (transformMetadata formatTokenName md h) as [[md1|e0|] h1]; simpl;
    [|intros [= <- <-]; exists EmptyString, EmptyString, EmptyString; by eexists|done].
  destruct (fs_ensureDir w SCSS_DIR) as [[]|e0|]; simpl;
    [|intros [= <- <-]; exists EmptyString, EmptyString, EmptyString; by eexists|done].
  destruct (generate w (tokensFile formatTokenName tokenColors md1 h1)) as [c1|e0|]; simpl;
    [|intros [= <- <-]; exists EmptyString, EmptyString, EmptyString; by eexists|done].
  destruct (fs_writeFile w TOKENS_ENTRYPOINT c1) as [[]|e0|]; simpl;
    [|intros [= <- <-]; exists EmptyString, EmptyString, EmptyString; by eexists|done].
  destruct (generate w (mixinsFile formatTokenName tokenColors)) as [c2|e0|]; simpl;
    [|intros [= <- <-]; exists c1, EmptyString, EmptyString; by eexists|done].
  destruct (fs_writeFile w MIXINS_ENTRYPOINT c2) as [[]|e0|]; simpl;
    [|intros [= <- <-]; exists c1, EmptyString, EmptyString; by eexists|done].
  destruct (generate w (themeMapsFile formatTokenName themes)) as [c3|e0|]; simpl;
    [|intros [= <- <-]; exists c1, c2, EmptyString; by eexists|done].
  destruct (fs_writeFile w MAPS_ENTRYPOINT c3) as [[]|e0|]; simpl;
    [done|intros [= <- <-]; exists c1, c2, EmptyString; by eexists|done].
Qed.

(** C9, amended: an error thrown while [build] loads, transforms, serializes
    or writes ends [build] there: what the run did before is an initial part
    of a complete run and nothing is tried again. The error reaches the
    handler of the top level, which logs it to the error stream, once, as the
    last event; completion is not reported. The handler sets no exit code, so
    the process exits with status 0. *)
Theorem thrown_error_is_logged
    (formatTokenName : string -> string) (themes : js_object (js_object string))
    (tokenColors : list string) (w : world) (e : error) (tr : list event) :
  build formatTokenName themes tokenColors w [] = (Thrown e, tr) ->
  let p := main formatTokenName themes tokenColors w in
  trace p = tr ++ [console_error e]
  /\ (exists code_tokens code_mixins code_maps,
        tr `prefix_of` [ reporter_info "Building scss files for themes...";
                         ensured_dir SCSS_DIR;
                         wrote_file TOKENS_ENTRYPOINT code_tokens;
                         wrote_file MIXINS_ENTRYPOINT code_mixins;
                         wrote_file MAPS_ENTRYPOINT code_maps ])
  /\ List.filter is_console_error (trace p) = [console_error e]
  /\ List.filter is_success (trace p) = []
  /\ exit_status p = 0.
Proof.
  intros Hbuild p.
  assert (Hp : p = {| trace := tr ++ [console_error e]; exitCode := None;
                      unhandled_rejection := false |}).
  { subst p. unfold main. by rewrite Hbuild. }
  destruct (build_thrown_trace _ _ _ _ _ _ Hbuild) as (c1 & c2 & c3 & k & Hk).
  rewrite Hp. cbn [trace]. split; [reflexivity|].
  split; [by exists c1, c2, c3, k|].
  assert (Hfilter : forall q, List.filter q tr ++ List.filter q k
                              = List.filter q [ reporter_info "Building scss files for themes...";
                                                ensured_dir SCSS_DIR;
                                                wrote_file TOKENS_ENTRYPOINT c1;
                                                wrote_file MIXINS_ENTRYPOINT c2;
                                                wrote_file MAPS_ENTRYPOINT c3 ]).
  { intros q. by rewrite Hk, List.filter_app. }
  rewrite !List.filter_app.
  pose proof (Hfilter is_console_error) as H1. pose proof (Hfilter is_success) as H2.
  simpl in H1, H2. apply app_eq_nil in H1 as [-> _]. apply app_eq_nil in H2 as [-> _].
  repeat split; reflexivity.
Qed.

Lemma thrown_error_is_logged_witness :
  trace (main Sample.formatTokenName Sample.themes Sample.tokenColors
              Worlds.read_only_mixins)
  = [ reporter_info "Building scss files for themes...";
      ensured_dir SCSS_DIR;
      wrote_file TOKENS_ENTRYPOINT "/* scss */";
      console_error (ExternalError "EACCES") ].
Proof.
  refine (proj1 (thrown_error_is_logged Sample.formatTokenName Sample.themes
                   Sample.tokenColors Worlds.read_only_mixins
                   (ExternalError "EACCES")
                   [ reporter_info "Building scss files for themes...";
                     ensured_dir SCSS_DIR;
                     wrote_file TOKENS_ENTRYPOINT "/* scss */" ] _)).
  vm_compute. reflexivity.
Defined.

(** ** C7: the reset guard of the mixin *)

Section ResetGuard.

Import Sass.

Variable formatTokenName : string -> string.




End ResetGuard.

(** Colors are compared by value. A theme whose color is written
    [#0F62FE] is the default theme whose color is written [#0f62fe]: the
    guard is false and the mixin is entered once. *)
Example same_color_in_capitals :
  Sass.hex_color "#0F62FE" = Some Sample.blue60
  /\ Sass.hex_color "#0f62fe" = Some Sample.blue60
  /\ Sass.hex_color "#4589ff" = Some Sample.blue50
  /\ forall upper lower,
       Sass.hex_color "#0F62FE" = Some upper ->
       Sass.hex_color "#0f62fe" = Some lower ->
       exists st,
         Sass.include 2 (themeMixin_definition Sample.formatTokenName Sample.tokenColors)
                      (Some (Sass.VMap {["interactive-01" := upper]})) id
                      {| Sass.globals :=
                           {["carbon--theme" := Sass.VMap {["interactive-01" := lower]}]};
                         Sass.invocations := 0 |}
         = Sass.Done st
         /\ Sass.invocations st = 1.
Proof.
  split; [reflexivity|]. split; [reflexivity|]. split; [reflexivity|].
  intros upper lower [= <-] [= <-]. eexists. split; [vm_compute; reflexivity|].
  reflexivity.
Qed.




(** * Further properties of the task *)

(** ** What [transformMetadata] keeps and what it rewrites *)


(** X1: [transformMetadata] returns its argument and rewrites nothing but
    role lines and aliases: every entry keeps its name, its [role] reference
    and its [deprecated] flag, an entry that is not in the [tokens] sequence is
    left as it is, an array that is the [role] of no entry of the sequence is
    left as it is, and every array keeps its number of lines. *)
Theorem transformMetadata_frame
    (formatTokenName : string -> string) (md md1 : metadata) (h h1 : heap)
    (refs : list loc) :
  tokens md = TokensSequence refs ->
  transformMetadata formatTokenName md h = (Returned md1, h1) ->
  md1 = md
  /\ (forall r, name (objects h1 r) = name (objects h r)
                /\ role (objects h1 r) = role (objects h r)
                /\ deprecated (objects h1 r) = deprecated (objects h r))
  /\ (forall r, r ∉ refs -> objects h1 r = objects h r)
  /\ (forall l, (forall r, r ∈ refs -> role (objects h r) <> Some l) ->
                arrays h1 l = arrays h l)
  /\ (forall l, length (arrays h1 l) = length (arrays h l)).
Proof.
  intros Hm Ht.
  apply transformMetadata_returned in Ht as (-> & refs' & rx & Hm' & _ & ->).
  rewrite Hm in Hm'. injection Hm' as <-.
  split; [reflexivity|]. split; [|split; [|split]].
  - intros r. by rewrite foldl_rewrite_name, foldl_rewrite_role, foldl_rewrite_deprecated.
  - intros r Hr. by apply foldl_rewrite_other.
  - intros l Hl. rewrite foldl_rewrite_arrays. by rewrite role_positions_none.
  - intros l. rewrite foldl_rewrite_arrays. apply iter_map_length.
Qed.

Lemma transformMetadata_frame_witness :
  name (objects (transformMetadata Sample.formatTokenName Sample.sample_metadata
                                   Sample.sample_heap).2 0)
  = "interactive01"
  /\ length (arrays (transformMetadata Sample.formatTokenName Sample.sample_metadata
                                       Sample.sample_heap).2 0)
     = 1.
Proof.
  destruct (transformMetadata_frame Sample.formatTokenName Sample.sample_metadata
              Sample.sample_metadata Sample.sample_heap _ [0; 1] eq_refl eq_refl)
    as (_ & Hentry & _ & _ & Hlen).
  split; [exact (proj1 (Hentry 0)) | exact (Hlen 0)].
Defined.

(** X2: after [transformMetadata] a role array holds its former lines, each
    sent through [role.replace(namesRegEx, ...)] once for every position of
    the [tokens] sequence whose entry has that array as its [role]: once
    when a single entry of the sequence owns the array. *)
Theorem transformMetadata_rewrites_roles
    (formatTokenName : string -> string) (md md1 : metadata) (h h1 : heap)
    (refs : list loc) (namesRegEx : regexp) (l : loc) :
  tokens md = TokensSequence refs ->
  RegExp_new (join "|" (token_names h refs)) = Returned namesRegEx ->
  transformMetadata formatTokenName md h = (Returned md1, h1) ->
  let rewrite :=
    String_replace namesRegEx (replacement (build_replaceMap formatTokenName h refs)) in
  arrays h1 l = Nat.iter (role_positions h l refs) (map rewrite) (arrays h l)
  /\ (role_positions h l refs = 1 -> arrays h1 l = map rewrite (arrays h l)).
Proof.
  intros Hm Hrx Ht rewrite.
  apply transformMetadata_returned in Ht as (-> & refs' & rx & Hm' & Hrx' & ->).
  rewrite Hm in Hm'. injection Hm' as <-.
  rewrite Hrx in Hrx'. injection Hrx' as <-.
  rewrite foldl_rewrite_arrays. split; [reflexivity|]. by intros ->.
Qed.

Lemma transformMetadata_rewrites_roles_witness :
  arrays (transformMetadata Sample.formatTokenName Sample.sample_metadata
                            Sample.sample_heap).2 0
  = map (String_replace {| alts := ["interactive01"; "uiBackground"] |}
           (replacement (build_replaceMap Sample.formatTokenName Sample.sample_heap
                                          [0; 1])))
        ["Primary interactive color, see interactive01"].
Proof.
  refine (proj2 (transformMetadata_rewrites_roles Sample.formatTokenName
                   Sample.sample_metadata Sample.sample_metadata Sample.sample_heap _
                   [0; 1] {| alts := ["interactive01"; "uiBackground"] |} 0
                   eq_refl eq_refl eq_refl) eq_refl).
Defined.

(** X3: a role array whose lines hold no match of the pattern built from the
    names comes out of [transformMetadata] unchanged, however many entries
    share it. *)
Theorem transformMetadata_keeps_unmatched_lines
    (formatTokenName : string -> string) (md md1 : metadata) (h h1 : heap)
    (refs : list loc) (namesRegEx : regexp) (l : loc) :
  tokens md = TokensSequence refs ->
  RegExp_new (join "|" (token_names h refs)) = Returned namesRegEx ->
  transformMetadata formatTokenName md h = (Returned md1, h1) ->
  Forall (fun line => no_match (alts namesRegEx) line = true) (arrays h l) ->
  arrays h1 l = arrays h l.
Proof.
  intros Hm Hrx Ht Hlines.
  apply transformMetadata_returned in Ht as (-> & refs' & rx & Hm' & Hrx' & ->).
  rewrite Hm in Hm'. injection Hm' as <-.
  rewrite Hrx in Hrx'. injection Hrx' as <-.
  rewrite foldl_rewrite_arrays. apply iter_fixed.
  rewrite <- (map_id (arrays h l)) at 2. apply map_ext_in.
  intros line Hin. apply replace_no_match.
  rewrite Forall_forall in Hlines. apply Hlines. by apply list_elem_of_In.
Qed.

Lemma transformMetadata_keeps_unmatched_lines_witness :
  role_positions Docs.shared_role_heap 0 [0; 1] = 2
  /\ arrays (transformMetadata Sample.formatTokenName Docs.shared_role
                               Docs.shared_role_heap).2 0
     = ["Brand color"].
Proof.
  split; [reflexivity|].
  refine (transformMetadata_keeps_unmatched_lines Sample.formatTokenName
            Docs.shared_role Docs.shared_role Docs.shared_role_heap
            _ [0; 1] {| alts := ["brand01"; "interactive01"] |} 0
            eq_refl eq_refl eq_refl _).
  repeat constructor.
Defined.

(** ** What the rewriting puts into a role line *)

Lemma first_match_elem_of alternatives s m :
  first_match alternatives s = Some m -> m ∈ alternatives.
Proof.
  induction alternatives as [|a rest IH]; simpl; [done|].
  destruct (String.prefix a s); [intros [= ->]; left | intros H; right; auto].
Qed.

Lemma replace_from_ext alternatives f g skip s :
  (forall m, m ∈ alternatives -> f m = g m) ->
  replace_from alternatives f skip s = replace_from alternatives g skip s.
Proof.
  intros Hfg. revert skip. induction s as [|c s IH]; intros [|k]; simpl; try done.
  - destruct (first_match alternatives EmptyString) as [m|] eqn:Hm; [|done].
    by rewrite (Hfg m (first_match_elem_of _ _ _ Hm)).
  - destruct (first_match alternatives (String c s)) as [m|] eqn:Hm.
    + rewrite (Hfg m (first_match_elem_of _ _ _ Hm)).
      destruct m; by rewrite IH.
    + by rewrite IH.
Qed.

(** X4: when the [tokens] sequence is not empty, the names hold no pattern
    syntax character and no token is named [__proto__], every match that
    [role.replace] finds is a declared name and an own property of
    [replaceMap]: rewriting a line puts [formatTokenName] of the matched name
    between the marker's backquotes and never prints [undefined]. *)
Theorem replacement_is_a_formatted_name
    (formatTokenName : string -> string) (h : heap) (refs : list loc)
    (namesRegEx : regexp) (line : string) :
  refs <> [] ->
  Forall (fun n => plain n = true) (token_names h refs) ->
  "__proto__" ∉ token_names h refs ->
  RegExp_new (join "|" (token_names h refs)) = Returned namesRegEx ->
  alts namesRegEx = token_names h refs
  /\ String_replace namesRegEx (replacement (build_replaceMap formatTokenName h refs)) line
     = String_replace namesRegEx (marked formatTokenName) line.
Proof.
  intros Hrefs Hplain Hproto Hrx.
  assert (Halts : alts namesRegEx = token_names h refs).
  { destruct refs as [|r refs]; [done|].
    change (token_names h (r :: refs))
      with (name (objects h r) :: token_names h refs) in Hplain, Hrx.
    rewrite (RegExp_new_names_plain _ _ Hplain) in Hrx. by injection Hrx as <-. }
  split; [exact Halts|]. unfold String_replace. apply replace_from_ext.
  intros m Hm. rewrite Halts in Hm. unfold marked.
  apply replacement_declared; [|exact Hm]. by intros ->.
Qed.

Lemma replacement_is_a_formatted_name_witness :
  String_replace {| alts := ["interactive01"; "uiBackground"] |}
    (replacement (build_replaceMap Sample.formatTokenName Sample.sample_heap [0; 1]))
    "uiBackground under interactive01"
  = String_replace {| alts := ["interactive01"; "uiBackground"] |}
      (marked Sample.formatTokenName) "uiBackground under interactive01".
Proof.
  refine (proj2 (replacement_is_a_formatted_name Sample.formatTokenName
                   Sample.sample_heap [0; 1]
                   {| alts := ["interactive01"; "uiBackground"] |}
                   "uiBackground under interactive01" _ _ _ eq_refl)).
  - discriminate.
  - repeat constructor.
  - by_computation.
Defined.

(** A token named [__proto__] is no own property of [replaceMap]: the
    assignment of a string to that key is ignored, the read yields
    [Object.prototype], and the line gets its text. *)
Example proto_name_prints_object :
  arrays (transformMetadata Sample.formatTokenName Docs.proto Docs.proto_heap).2 0
  = ["`$[object Object]`"].
Proof. vm_compute. reflexivity. Qed.

(** A name that holds a bar is cut into two alternatives, neither of which
    is a key of [replaceMap]: the line gets [undefined]. *)
Example bar_in_a_name_prints_undefined :
  arrays (transformMetadata Sample.formatTokenName {| tokens := TokensSequence [0] |}
            (typed_heap (fun _ => Docs.entry "a|b" (Some 0) None)
                        (fun _ => ["a"]))).2 0
  = ["`$undefined`"].
Proof. vm_compute. reflexivity. Qed.

(** ** The documentation block of a token *)

(** X5: the nodes that [tokensFile] emits for a token are, in this order:
    for an entry with a role, the comment made of [/ ] and the role lines
    joined by [; ]; the type annotation ([@type Color], [@access public],
    [@group @carbon/themes]); for a non-empty alias [a], the comment
    [/ @alias a]; for a deprecated entry, the comment [/ @deprecated]; and
    the [!default] assignment of [map-get($carbon--theme, name)] to the
    formatted name. So the token gets one to four comments before its
    assignment, and a token without a metadata entry gets the type annotation
    and the assignment, nothing else. *)
Theorem token_block_shape
    (formatTokenName : string -> string) (md : metadata) (h : heap) (token : string) :
  exists docs,
    token_block formatTokenName md h token
    = docs ++ [Assignment (Identifier (formatTokenName token))
                          (CallExpression (Identifier "map-get")
                                          [Identifier "carbon--theme";
                                           SassString (formatTokenName token)])
                          true false]
    /\ docs
       = match tokenData md h token ≫= role with
         | Some l => [Comment ("/ " +:+ join "; " (arrays h l))]
         | None => []
         end
         ++ [Comment "/ @type Color
/ @access public
/ @group @carbon/themes"]
         ++ match tokenData md h token ≫= alias with
            | Some (String c a) => [Comment ("/ @alias " +:+ String c a)]
            | _ => []
            end
         ++ match tokenData md h token with
            | Some d => if deprecated d then [Comment "/ @deprecated"] else []
            | None => []
            end
    /\ Forall (fun n => is_Comment n = true) docs
    /\ token_type_comment ∈ docs
    /\ 1 <= length docs <= 4
    /\ length docs
       = 1
         + match tokenData md h token with
           | Some d =>
               (match role d with Some _ => 1 | None => 0 end)
               + (if truthy (alias d) then 1 else 0)
               + (if deprecated d then 1 else 0)
           | None => 0
           end
    /\ (forall d l, tokenData md h token = Some d -> role d = Some l ->
          exists rest, docs = Comment ("/ " +:+ join "; " (arrays h l)) :: rest)
    /\ (tokenData md h token = None -> docs = [token_type_comment]).
Proof.
  unfold token_block, filter_Boolean.
  destruct (tokenData md h token) as [[n [l|] [[|c a]|] [|]]|]; simpl;
    match goal with |- exists docs, ?block = _ /\ _ => exists (removelast block) end;
    simpl; (split; [reflexivity|]);
    (split; [reflexivity|]);
    (split; [repeat constructor|]);
    (split; [set_solver|]);
    (split; [simpl; lia|]);
    (split; [reflexivity|]);
    (split; [intros d' l' Hd Hl; try discriminate Hd; injection Hd as <-;
             simpl in Hl; try discriminate Hl; injection Hl as <-;
             eexists; reflexivity|]);
    try done.
Qed.

(** ** From the metadata file to the token defaults module *)

Lemma find_name_ext (h h1 : heap) (refs : list loc) token :
  (forall r, name (objects h1 r) = name (objects h r)) ->
  List.find (fun r => String.eqb (name (objects h1 r)) token) refs
  = List.find (fun r => String.eqb (name (objects h r)) token) refs.
Proof.
  intros Hname. induction refs as [|r refs IH]; [reflexivity|]. simpl.
  by rewrite Hname, IH.
Qed.

Lemma token_block_annotations formatTokenName md h token d :
  tokenData md h token = Some d ->
  (forall l, role d = Some l ->
             Comment ("/ " +:+ join "; " (arrays h l))
             ∈ token_block formatTokenName md h token)
  /\ (forall a, alias d = Some a -> truthy (Some a) = true ->
                Comment ("/ @alias " +:+ a) ∈ token_block formatTokenName md h token).
Proof.
  intros Hd. unfold token_block, filter_Boolean. rewrite Hd.
  destruct d as [n ro al de]. simpl. split.
  - intros l ->. simpl. left.
  - intros a -> Ha. destruct a as [|c a]; [discriminate|].
    destruct ro, de; simpl; set_solver.
Qed.

Lemma token_block_in_tokensFile formatTokenName tokenColors md h token n :
  token ∈ tokenColors ->
  n ∈ token_block formatTokenName md h token ->
  n ∈ children (tokensFile formatTokenName tokenColors md h).
Proof.
  intros Htoken Hn. unfold tokensFile. cbn [children].
  apply elem_of_app. right. apply list_elem_of_In, in_flat_map.
  exists token. split; by apply list_elem_of_In.
Qed.

(** X6: the alias annotation of the token defaults module is the formatted
    alias. For a canonical token whose metadata entry (the first entry of
    the sequence with that name) stands once in the sequence and has a
    non-empty alias [a], the module built from the transformed metadata holds
    the comment [/ @alias formatTokenName(a)], provided the formatted alias is
    not empty. *)
Theorem tokensFile_shows_formatted_alias
    (formatTokenName : string -> string) (tokenColors : list string)
    (md md1 : metadata) (h h1 : heap) (refs : list loc)
    (token : string) (r : loc) (c : ascii) (a : string) :
  tokens md = TokensSequence refs ->
  transformMetadata formatTokenName md h = (Returned md1, h1) ->
  token ∈ tokenColors ->
  List.find (fun r => String.eqb (name (objects h r)) token) refs = Some r ->
  positions r refs = 1 ->
  alias (objects h r) = Some (String c a) ->
  truthy (Some (formatTokenName (String c a))) = true ->
  Comment ("/ @alias " +:+ formatTokenName (String c a))
  ∈ children (tokensFile formatTokenName tokenColors md1 h1).
Proof.
  intros Hm Ht Htoken Hfind Hpos Halias Htruthy.
  apply transformMetadata_returned in Ht as (-> & refs' & rx & Hm' & _ & ->).
  rewrite Hm in Hm'. injection Hm' as <-.
  set (h1 := foldl _ h refs).
  assert (Hd : tokenData md h1 token = Some (objects h1 r)).
  { unfold tokenData. rewrite Hm.
    rewrite (find_name_ext h h1); [by rewrite Hfind|].
    intros r'. apply foldl_rewrite_name. }
  apply (token_block_in_tokensFile _ _ _ _ token); [exact Htoken|].
  apply (proj2 (token_block_annotations formatTokenName md h1 token _ Hd));
    [|exact Htruthy].
  subst h1. rewrite foldl_rewrite_alias, Hpos, Halias. reflexivity.
Qed.

Lemma tokensFile_shows_formatted_alias_witness :
  Comment "/ @alias brand-01"
  ∈ children (tokensFile Sample.formatTokenName Sample.tokenColors
                Sample.sample_metadata
                (transformMetadata Sample.formatTokenName Sample.sample_metadata
                                   Sample.sample_heap).2).
Proof.
  refine (tokensFile_shows_formatted_alias Sample.formatTokenName Sample.tokenColors
            Sample.sample_metadata Sample.sample_metadata Sample.sample_heap _
            [0; 1] "interactive01" 0 "b"%char "rand01"
            eq_refl eq_refl _ eq_refl eq_refl eq_refl eq_refl).
  left.
Defined.

(** X7: the role annotation of the token defaults module is made of the
    rewritten role lines. For a canonical token whose metadata entry has a
    role array that no other position of the sequence shares, the module
    built from the transformed metadata holds the comment made of [/ ] and
    the lines of the array, each sent through [role.replace(namesRegEx, ...)],
    joined by [; ]. *)
Theorem tokensFile_shows_rewritten_role
    (formatTokenName : string -> string) (tokenColors : list string)
    (md md1 : metadata) (h h1 : heap) (refs : list loc) (namesRegEx : regexp)
    (token : string) (r l : loc) :
  tokens md = TokensSequence refs ->
  RegExp_new (join "|" (token_names h refs)) = Returned namesRegEx ->
  transformMetadata formatTokenName md h = (Returned md1, h1) ->
  token ∈ tokenColors ->
  List.find (fun r => String.eqb (name (objects h r)) token) refs = Some r ->
  role (objects h r) = Some l ->
  role_positions h l refs = 1 ->
  Comment ("/ " +:+ join "; "
             (map (String_replace namesRegEx
                     (replacement (build_replaceMap formatTokenName h refs)))
                  (arrays h l)))
  ∈ children (tokensFile formatTokenName tokenColors md1 h1).
Proof.
  intros Hm Hrx Ht Htoken Hfind Hrole Hpos.
  apply transformMetadata_returned in Ht as (-> & refs' & rx & Hm' & Hrx' & ->).
  rewrite Hm in Hm'. injection Hm' as <-.
  rewrite Hrx in Hrx'. injection Hrx' as <-.
  set (h1 := foldl _ h refs).
  assert (Hd : tokenData md h1 token = Some (objects h1 r)).
  { unfold tokenData. rewrite Hm.
    rewrite (find_name_ext h h1); [by rewrite Hfind|].
    intros r'. apply foldl_rewrite_name. }
  apply (token_block_in_tokensFile _ _ _ _ token); [exact Htoken|].
  assert (Harr : arrays h1 l
                 = map (String_replace namesRegEx
                          (replacement (build_replaceMap formatTokenName h refs)))
                       (arrays h l)).
  { subst h1. by rewrite foldl_rewrite_arrays, Hpos. }
  rewrite <- Harr.
  apply (proj1 (token_block_annotations formatTokenName md h1 token _ Hd)).
  subst h1. by rewrite foldl_rewrite_role.
Qed.

Lemma tokensFile_shows_rewritten_role_witness :
  Comment "/ Primary interactive color, see `$interactive-01`"
  ∈ children (tokensFile Sample.formatTokenName Sample.tokenColors
                Sample.sample_metadata
                (transformMetadata Sample.formatTokenName Sample.sample_metadata
                                   Sample.sample_heap).2).
Proof.
  refine (tokensFile_shows_rewritten_role Sample.formatTokenName Sample.tokenColors
            Sample.sample_metadata Sample.sample_metadata Sample.sample_heap _
            [0; 1] {| alts := ["interactive01"; "uiBackground"] |}
            "interactive01" 0 0
            eq_refl eq_refl eq_refl _ eq_refl eq_refl eq_refl).
  left.
Defined.

(** ** The theme maps module as a whole *)

Lemma theme_nodes_map_declarations formatTokenName themes names :
  List.filter is_map_declaration (theme_nodes formatTokenName themes names)
  = map (fun name => theme_variable formatTokenName name (default [] (js_get themes name)))
        names.
Proof. induction names as [|n names IH]; [reflexivity|]. simpl. by rewrite IH. Qed.

Lemma theme_nodes_length formatTokenName themes names :
  length (theme_nodes formatTokenName themes names) = 2 * length names.
Proof. induction names as [|n names IH]; [reflexivity|]. simpl. rewrite IH. lia. Qed.

(** X8: the theme-maps module declares the map literals of the themes in the
    order of the theme table, one per theme and each built from the table of
    its own theme, and holds nothing but the banner, a comment and a
    declaration per theme, and the comment and alias of the default theme:
    three nodes for an empty table. *)
Theorem themeMaps_in_table_order
    (formatTokenName : string -> string) (themes : js_object (js_object string)) :
  NoDup (Object_keys themes) ->
  List.filter is_map_declaration (children (themeMapsFile formatTokenName themes))
  = map (fun binding : string * js_object string =>
           theme_variable formatTokenName binding.1 binding.2)
        themes
  /\ length (children (themeMapsFile formatTokenName themes)) = 3 + 2 * length themes.
Proof.
  intros Hnd. unfold themeMapsFile. cbn [children]. rewrite themeMaps_theme_nodes.
  split.
  - cbn [app List.filter FILE_BANNER is_map_declaration]. rewrite List.filter_app.
    rewrite theme_nodes_map_declarations.
    cbn [List.filter default_theme_comment default_theme_alias is_map_declaration].
    rewrite app_nil_r. unfold Object_keys. rewrite map_map.
    apply map_ext_in. intros [name theme] Hin. simpl.
    apply list_elem_of_In in Hin. by rewrite (js_get_NoDup _ _ _ Hnd Hin).
  - rewrite !length_app, theme_nodes_length. unfold Object_keys.
    rewrite length_map. simpl. lia.
Qed.

Lemma themeMaps_in_table_order_witness :
  List.filter is_map_declaration
    (children (themeMapsFile Sample.formatTokenName
                 [("white", [("interactive01", "#0f62fe")]);
                  ("g90", [("interactive01", "#4589ff")])]))
  = [theme_variable Sample.formatTokenName "white" [("interactive01", "#0f62fe")];
     theme_variable Sample.formatTokenName "g90" [("interactive01", "#4589ff")]].
Proof.
  refine (proj1 (themeMaps_in_table_order Sample.formatTokenName
                   [("white", [("interactive01", "#0f62fe")]);
                    ("g90", [("interactive01", "#4589ff")])] _)).
  by_computation.
Defined.

(** X9: the keys of the map literal of a theme are the formatted names of
    the tokens of the theme's own table, in its order; the canonical token
    list is not consulted. So the key that the default assignment of a token
    looks up is a key of the theme's map exactly when the theme holds a token
    with the same formatted name: a token that the theme lacks is left out of
    the map without an error. *)
Theorem theme_map_keys
    (formatTokenName : string -> string) (name : string) (theme : js_object string)
    (token : string) :
  map_keys (theme_variable formatTokenName name theme)
  = map formatTokenName (Object_keys theme)
  /\ lookup_key (default_assignment formatTokenName token)
     = Some (formatTokenName token)
  /\ lookup_key (global_assignment formatTokenName token)
     = Some (formatTokenName token)
  /\ (formatTokenName token ∈ map_keys (theme_variable formatTokenName name theme)
      <-> exists t, t ∈ Object_keys theme /\ formatTokenName t = formatTokenName token).
Proof.
  assert (Hkeys : map_keys (theme_variable formatTokenName name theme)
                  = map formatTokenName (Object_keys theme)).
  { unfold theme_variable, theme_properties. cbn [map_keys].
    induction (Object_keys theme) as [|k ks IH]; [reflexivity|].
    simpl. by rewrite IH. }
  split; [exact Hkeys|]. split; [reflexivity|]. split; [reflexivity|].
  rewrite Hkeys. rewrite list_elem_of_fmap. split.
  - intros (t & Heq & Ht). by exists t.
  - intros (t & Ht & Heq). by exists t.
Qed.

(** ** The heads of the three documents *)

Lemma token_block_no_import formatTokenName md h token :
  List.filter is_SassImport (token_block formatTokenName md h token) = [].
Proof.
  unfold token_block, filter_Boolean.
  destruct (tokenData md h token) as [[n [l|] [[|c a]|] [|]]|]; reflexivity.
Qed.

Lemma theme_nodes_no_import formatTokenName themes names :
  List.filter is_SassImport (theme_nodes formatTokenName themes names) = [].
Proof. induction names as [|n names IH]; [reflexivity | exact IH]. Qed.

(** X10: the three documents of a run start with the same banner. The token
    defaults and the mixins modules import [./theme-maps] right after it and
    import nothing else; the theme-maps module imports nothing. *)
Theorem documents_banner_and_import
    (formatTokenName : string -> string) (themes : js_object (js_object string))
    (tokenColors : list string) (md : metadata) (h : heap) :
  let docs := assemble formatTokenName themes tokenColors md h in
  (exists rest,
      children (doc_tokens docs) = FILE_BANNER :: SassImport "./theme-maps" :: rest
      /\ List.filter is_SassImport rest = [])
  /\ (exists rest,
         children (doc_mixins docs) = FILE_BANNER :: SassImport "./theme-maps" :: rest
         /\ List.filter is_SassImport rest = [])
  /\ (exists rest,
         children (doc_maps docs) = FILE_BANNER :: rest
         /\ List.filter is_SassImport rest = []).
Proof.
  cbn [assemble doc_tokens doc_mixins doc_maps]. split; [|split].
  - eexists. split; [reflexivity|].
    induction tokenColors as [|t ts IH]; [reflexivity|].
    cbn [flat_map]. by rewrite List.filter_app, token_block_no_import, IH.
  - eexists. split; reflexivity.
  - eexists. split; [reflexivity|]. rewrite themeMaps_theme_nodes.
    by rewrite List.filter_app, theme_nodes_no_import.
Qed.

(** ** The run as a whole *)

(** The events of any run of [build]: an initial part of the events of a
    complete run. *)
Lemma build_trace_prefix formatTokenName themes tokenColors (w : world) o tr :
  build formatTokenName themes tokenColors w [] = (o, tr) ->
  exists code_tokens code_mixins code_maps,
    tr `prefix_of` [ reporter_info "Building scss files for themes...";
                     ensured_dir SCSS_DIR;
                     wrote_file TOKENS_ENTRYPOINT code_tokens;
                     wrote_file MIXINS_ENTRYPOINT code_mixins;
                     wrote_file MAPS_ENTRYPOINT code_maps;
                     reporter_success "Done! 🎉" ].
Proof.
  unfold build, write_document, mbind, M_bind, answer, emit, assemble. simpl.
  destruct (fs_readFileSync w METADATA_FILE) as [text|e0|]; simpl;
    [|intros [= <- <-]; exists EmptyString, EmptyString, EmptyString; by eexists..].
  destruct (yaml_safeLoad w text) as [[md h]|e0|]; simpl;
    [|intros [= <- <-]; exists EmptyString, EmptyString, EmptyString; by eexists..].
  destruct (transformMetadata formatTokenName md h) as [[md1|e0|] h1]; simpl;
    [|intros [= <- <-]; exists EmptyString, EmptyString, EmptyString; by eexists..].
  destruct (fs_ensureDir w SCSS_DIR) as [[]|e0|]; simpl;
    [|intros [= <- <-]; exists EmptyString, EmptyString, EmptyString; by eexists..].
  destruct (generate w (tokensFile formatTokenName tokenColors md1 h1)) as [c1|e0|]; simpl;
    [|intros [= <- <-]; exists EmptyString, EmptyString, EmptyString; by eexists..].
  destruct (fs_writeFile w TOKENS_ENTRYPOINT c1) as [[]|e0|]; simpl;
    [|intros [= <- <-]; exists EmptyString, EmptyString, EmptyString; by eexists..].
  destruct (generate w (mixinsFile formatTokenName tokenColors)) as [c2|e0|]; simpl;
    [|intros [= <- <-]; exists c1, EmptyString, EmptyString; by eexists..].
  destruct (fs_writeFile w MIXINS_ENTRYPOINT c2) as [[]|e0|]; simpl;
    [|intros [= <- <-]; exists c1, EmptyString, EmptyString; by eexists..].
  destruct (generate w (themeMapsFile formatTokenName themes)) as [c3|e0|]; simpl;
    [|intros [= <- <-]; exists c1, c2, EmptyString; by eexists..].
  destruct (fs_writeFile w MAPS_ENTRYPOINT c3) as [[]|e0|]; simpl;
    intros [= <- <-]; exists c1, c2, c3; by eexists.
Qed.

(** X11: [build] returns exactly when every collaborator has answered: the
    metadata file was read and loaded, [transformMetadata] returned, the
    directory was created, and each of the three documents was serialized and
    written. The run then did, in this order: the first report, the
    directory, the token defaults file, the mixins file, the theme-maps file,
    the report of completion. *)
Theorem build_returns_iff
    (formatTokenName : string -> string) (themes : js_object (js_object string))
    (tokenColors : list string) (w : world) (tr : list event) :
  build formatTokenName themes tokenColors w [] = (Returned tt, tr)
  <-> exists text md h md1 h1 code_tokens code_mixins code_maps,
        fs_readFileSync w METADATA_FILE = Returned text
        /\ yaml_safeLoad w text = Returned (md, h)
        /\ transformMetadata formatTokenName md h = (Returned md1, h1)
        /\ fs_ensureDir w SCSS_DIR = Returned tt
        /\ generate w (tokensFile formatTokenName tokenColors md1 h1)
           = Returned code_tokens
        /\ generate w (mixinsFile formatTokenName tokenColors) = Returned code_mixins
        /\ generate w (themeMapsFile formatTokenName themes) = Returned code_maps
        /\ fs_writeFile w TOKENS_ENTRYPOINT code_tokens = Returned tt
        /\ fs_writeFile w MIXINS_ENTRYPOINT code_mixins = Returned tt
        /\ fs_writeFile w MAPS_ENTRYPOINT code_maps = Returned tt
        /\ tr = [ reporter_info "Building scss files for themes...";
                  ensured_dir SCSS_DIR;
                  wrote_file TOKENS_ENTRYPOINT code_tokens;
                  wrote_file MIXINS_ENTRYPOINT code_mixins;
                  wrote_file MAPS_ENTRYPOINT code_maps;
                  reporter_success "Done! 🎉" ].
Proof.
  split.
  - unfold build, write_document, mbind, M_bind, answer, emit, assemble. simpl.
    destruct (fs_readFileSync w METADATA_FILE) as [text|e0|] eqn:Hread; simpl;
      try discriminate.
    destruct (yaml_safeLoad w text) as [[md h]|e0|] eqn:Hload; simpl; try discriminate.
    destruct (transformMetadata formatTokenName md h) as [[md1|e0|] h1] eqn:Ht; simpl;
      try discriminate.
    destruct (fs_ensureDir w SCSS_DIR) as [[]|e0|] eqn:Hdir; simpl; try discriminate.
    destruct (generate w (tokensFile formatTokenName tokenColors md1 h1))
      as [c1|e0|] eqn:Hg1; simpl; try discriminate.
    destruct (fs_writeFile w TOKENS_ENTRYPOINT c1) as [[]|e0|] eqn:Hw1; simpl;
      try discriminate.
    destruct (generate w (mixinsFile formatTokenName tokenColors))
      as [c2|e0|] eqn:Hg2; simpl; try discriminate.
    destruct (fs_writeFile w MIXINS_ENTRYPOINT c2) as [[]|e0|] eqn:Hw2; simpl;
      try discriminate.
    destruct (generate w (themeMapsFile formatTokenName themes))
      as [c3|e0|] eqn:Hg3; simpl; try discriminate.
    destruct (fs_writeFile w MAPS_ENTRYPOINT c3) as [[]|e0|] eqn:Hw3; simpl;
      try discriminate.
    intros [= <-]. exists text, md, h, md1, h1, c1, c2, c3. repeat split; done.
  - intros (text & md & h & md1 & h1 & c1 & c2 & c3 & Hread & Hload & Ht & Hdir
            & Hg1 & Hg2 & Hg3 & Hw1 & Hw2 & Hw3 & ->).
    by apply (build_returns _ _ _ _ text md h md1 h1).
Qed.

(** X12: nothing is undone when a later step fails. When everything up to the
    last write has answered and writing the theme-maps file throws, [build]
    throws that error with the token defaults and the mixins files written,
    and the top level logs the error after them. *)
Theorem failed_last_write_keeps_earlier_files
    (formatTokenName : string -> string) (themes : js_object (js_object string))
    (tokenColors : list string) (w : world)
    text md h md1 h1 code_tokens code_mixins code_maps e :
  fs_readFileSync w METADATA_FILE = Returned text ->
  yaml_safeLoad w text = Returned (md, h) ->
  transformMetadata formatTokenName md h = (Returned md1, h1) ->
  fs_ensureDir w SCSS_DIR = Returned tt ->
  generate w (tokensFile formatTokenName tokenColors md1 h1) = Returned code_tokens ->
  generate w (mixinsFile formatTokenName tokenColors) = Returned code_mixins ->
  generate w (themeMapsFile formatTokenName themes) = Returned code_maps ->
  fs_writeFile w TOKENS_ENTRYPOINT code_tokens = Returned tt ->
  fs_writeFile w MIXINS_ENTRYPOINT code_mixins = Returned tt ->
  fs_writeFile w MAPS_ENTRYPOINT code_maps = Thrown e ->
  trace (main formatTokenName themes tokenColors w)
  = [ reporter_info "Building scss files for themes...";
      ensured_dir SCSS_DIR;
      wrote_file TOKENS_ENTRYPOINT code_tokens;
      wrote_file MIXINS_ENTRYPOINT code_mixins;
      console_error e ].
Proof.
  intros Hread Hload Htransform Hdir Hg1 Hg2 Hg3 Hw1 Hw2 Hw3.
  unfold main, build, write_document, mbind, M_bind, answer, emit, assemble. simpl.
  rewrite Hread, Hload. simpl. rewrite Htransform. simpl.
  rewrite Hdir, Hg1, Hw1. simpl. rewrite Hg2, Hw2. simpl. rewrite Hg3, Hw3.
  reflexivity.
Qed.

Lemma failed_last_write_keeps_earlier_files_witness :
  trace (main Sample.formatTokenName Sample.themes Sample.tokenColors
              MoreWorlds.read_only_maps)
  = [ reporter_info "Building scss files for themes...";
      ensured_dir SCSS_DIR;
      wrote_file TOKENS_ENTRYPOINT "/* scss */";
      wrote_file MIXINS_ENTRYPOINT "/* scss */";
      console_error (ExternalError "EACCES") ].
Proof.
  refine (failed_last_write_keeps_earlier_files Sample.formatTokenName Sample.themes
            Sample.tokenColors MoreWorlds.read_only_maps _ _ _ _ _ _ _ _ _
            eq_refl eq_refl eq_refl eq_refl eq_refl eq_refl eq_refl eq_refl eq_refl
            eq_refl).
Defined.

(** X13: whatever the collaborators answer, the top level logs to the error
    stream exactly the error that [build] has thrown, and nothing when
    [build] has returned; in every case it leaves no rejection unhandled, sets
    no exit code, and the process exits with status 0. *)
Theorem main_logs_what_build_throws
    (formatTokenName : string -> string) (themes : js_object (js_object string))
    (tokenColors : list string) (w : world) :
  let p := main formatTokenName themes tokenColors w in
  List.filter is_console_error (trace p)
  = match (build formatTokenName themes tokenColors w []).1 with
    | Thrown e => [console_error e]
    | _ => []
    end
  /\ unhandled_rejection p = false
  /\ exitCode p = None
  /\ exit_status p = 0.
Proof.
  intros p. subst p. unfold main.
  destruct (build formatTokenName themes tokenColors w []) as [o tr] eqn:Hbuild.
  destruct (build_trace_prefix _ _ _ _ _ _ Hbuild) as (c1 & c2 & c3 & k & Hk).
  assert (Hno : List.filter is_console_error tr = []).
  { apply (f_equal (List.filter is_console_error)) in Hk.
    rewrite List.filter_app in Hk. simpl in Hk. symmetry in Hk.
    by apply app_eq_nil in Hk as [-> _]. }
  destruct o as [[]|e|]; cbn [trace fst exitCode unhandled_rejection exit_status];
    rewrite ?List.filter_app, Hno; repeat split; reflexivity.
Qed.

(** ** The token variables around the content of the mixin *)






(** ** How the pattern meets a line *)

Lemma prefix_app (a b : string) : String.prefix a (a +:+ b) = true.
Proof.
  induction a as [|c a IH]; [by destruct b|].
  change (String.prefix (String c a) (String c (a +:+ b)) = true). simpl.
  by destruct (ascii_dec c c).
Qed.

Lemma prefix_trans (a b c : string) :
  String.prefix a b = true -> String.prefix b c = true -> String.prefix a c = true.
Proof.
  revert a b. induction c as [|x c IH]; intros [|y a] [|z b]; simpl; try done.
  destruct (ascii_dec y z) as [->|]; [|done].
  destruct (ascii_dec z x) as [->|]; [|done].
  apply IH.
Qed.

Lemma replace_from_skip alternatives f (n rest : string) :
  replace_from alternatives f (String.length n) (n +:+ rest)
  = replace_from alternatives f 0 rest.
Proof.
  induction n as [|c n IH]; [reflexivity|].
  change (replace_from alternatives f (S (String.length n)) (String c (n +:+ rest))
          = replace_from alternatives f 0 rest).
  destruct rest; exact IH.
Qed.

(** X16: where the first declared name that begins the rest of a line is
    the non-empty name [n], other than [__proto__], the rewriting writes
    [formatTokenName n] between the marker's backquotes in its place and goes
    on after the name (the source's [interactive01 to `$interactive-01`]);
    where that name is [__proto__], which is never an own property of
    [replaceMap], it writes the text of [Object.prototype] between the
    backquotes; where no name begins the rest of the line, it copies one
    character and goes on. The sequence is not empty and its names hold no
    pattern syntax character. *)
Theorem role_line_rewritten_at_a_name
    (formatTokenName : string -> string) (h : heap) (refs : list loc)
    (namesRegEx : regexp) (c : ascii) (n rest : string) :
  refs <> [] ->
  Forall (fun n => plain n = true) (token_names h refs) ->
  RegExp_new (join "|" (token_names h refs)) = Returned namesRegEx ->
  let rewrite :=
    String_replace namesRegEx (replacement (build_replaceMap formatTokenName h refs)) in
  (String c n <> "__proto__" ->
   first_match (token_names h refs) (String c n +:+ rest) = Some (String c n) ->
   rewrite (String c n +:+ rest)
   = "`$" +:+ formatTokenName (String c n) +:+ "`" +:+ rewrite rest)
  /\ (first_match (token_names h refs) ("__proto__" +:+ rest) = Some "__proto__" ->
      rewrite ("__proto__" +:+ rest) = "`$[object Object]`" +:+ rewrite rest)
  /\ (first_match (token_names h refs) (String c rest) = None ->
      rewrite (String c rest) = String c (rewrite rest)).
Proof.
  intros Hrefs Hplain Hrx rewrite. subst rewrite.
  assert (Halts : alts namesRegEx = token_names h refs).
  { destruct refs as [|r refs]; [done|].
    change (token_names h (r :: refs))
      with (name (objects h r) :: token_names h refs) in Hplain, Hrx |- *.
    rewrite (RegExp_new_names_plain _ _ Hplain) in Hrx. by injection Hrx as <-. }
  unfold String_replace. rewrite Halts. split; [|split].
  - intros Hne Hm.
    change (String c n +:+ rest) with (String c (n +:+ rest)) in Hm |- *.
    cbn [replace_from]. rewrite Hm, replace_from_skip.
    rewrite replacement_declared;
      [|exact Hne | eapply first_match_elem_of; exact Hm].
    by rewrite !string_app_assoc.
  - intros Hm.
    change ("__proto__" +:+ rest) with (String "_" ("_proto__" +:+ rest)) in Hm |- *.
    cbn [replace_from]. rewrite Hm, replace_from_skip. reflexivity.
  - intros Hnone. cbn [replace_from]. by rewrite Hnone.
Qed.

Lemma role_line_rewritten_at_a_name_witness :
  String_replace {| alts := ["interactive01"; "uiBackground"] |}
    (replacement (build_replaceMap Sample.formatTokenName Sample.sample_heap [0; 1]))
    ("interactive01" +:+ " on uiBackground")
  = "`$" +:+ Sample.formatTokenName "interactive01" +:+ "`"
    +:+ String_replace {| alts := ["interactive01"; "uiBackground"] |}
          (replacement (build_replaceMap Sample.formatTokenName Sample.sample_heap
                                         [0; 1]))
          " on uiBackground".
Proof.
  refine (proj1 (role_line_rewritten_at_a_name Sample.formatTokenName
                   Sample.sample_heap [0; 1]
                   {| alts := ["interactive01"; "uiBackground"] |}
                   "i"%char "nteractive01" " on uiBackground" _ _ eq_refl)
                _ eq_refl).
  - discriminate.
  - repeat constructor.
  - discriminate.
Defined.

(** With an empty [tokens] sequence the pattern is empty and matches the
    empty string at every position; no line is rewritten then, because no
    entry is visited. *)
Example empty_pattern_matches_everywhere :
  String_replace {| alts := alternatives (join "|" []) |}
    (replacement (build_replaceMap Sample.formatTokenName Sample.sample_heap [])) "ab"
  = "`$undefined`a`$undefined`b`$undefined`".
Proof. vm_compute. reflexivity. Qed.

(** X17: a name is never matched where a name declared before it begins the
    same text. So a token whose name starts with the name of a token declared
    earlier is never replaced as a whole: at every place where the longer
    name stands, the match is a name declared before the shorter one or the
    shorter one itself. *)
Theorem earlier_prefix_shadows_longer_name
    (before after : list string) (shorter longer line m : string) :
  String.prefix shorter longer = true ->
  String.prefix longer line = true ->
  first_match (before ++ shorter :: after) line = Some m ->
  m ∈ before \/ m = shorter.
Proof.
  intros Hp Hl. pose proof (prefix_trans _ _ _ Hp Hl) as Hs.
  induction before as [|b before IH]; simpl.
  - rewrite Hs. intros [= <-]. by right.
  - destruct (String.prefix b line).
    + intros [= <-]. left. left.
    + intros Hm. destruct (IH Hm) as [Hin| ->]; [left; by right | by right].
Qed.

Lemma earlier_prefix_shadows_longer_name_witness :
  "hoverPrimary" ∈ ([] : list string) \/ "hoverPrimary" = "hoverPrimary".
Proof.
  exact (earlier_prefix_shadows_longer_name [] ["hoverPrimaryText"] "hoverPrimary"
           "hoverPrimaryText" "hoverPrimaryText is the label" "hoverPrimary"
           eq_refl eq_refl eq_refl).
Defined.

(** ** Which metadata entry documents a token *)

(** X18: the metadata of a canonical token is the first entry of the sequence
    with the name of the token: entries after it, also with the same name, do
    not reach the token defaults module. When no entry of the sequence has
    the name, the token is documented by the type annotation alone. *)
Theorem tokenData_first_entry
    (formatTokenName : string -> string) (md : metadata) (h : heap)
    (refs : list loc) (token : string) :
  tokens md = TokensSequence refs ->
  (forall before r after,
      refs = before ++ r :: after ->
      Forall (fun r' => name (objects h r') <> token) before ->
      name (objects h r) = token ->
      tokenData md h token = Some (objects h r))
  /\ (Forall (fun r' => name (objects h r') <> token) refs ->
      tokenData md h token = None
      /\ token_block formatTokenName md h token
         = [token_type_comment; default_assignment formatTokenName token]).
Proof.
  intros Hm. unfold token_block, tokenData. rewrite Hm. split.
  - intros before r after -> Hbefore Hr. clear Hm.
    induction Hbefore as [|r' before Hr' _ IH]; simpl.
    + by rewrite Hr, String.eqb_refl.
    + destruct (String.eqb_spec (name (objects h r')) token); [done | exact IH].
  - intros Hnone. clear Hm.
    assert (Hfind : List.find (fun r => String.eqb (name (objects h r)) token) refs = None).
    { induction Hnone as [|r' refs Hr' _ IH]; [reflexivity|]. simpl.
      destruct (String.eqb_spec (name (objects h r')) token); [done | exact IH]. }
    rewrite Hfind. split; reflexivity.
Qed.

Lemma tokenData_first_entry_witness :
  tokenData Sample.sample_metadata Sample.sample_heap "uiBackground"
  = Some Sample.entry1
  /\ (tokenData Sample.sample_metadata Sample.sample_heap "focus" = None
      /\ token_block Sample.formatTokenName Sample.sample_metadata Sample.sample_heap
                     "focus"
         = [token_type_comment; default_assignment Sample.formatTokenName "focus"]).
Proof.
  destruct (tokenData_first_entry Sample.formatTokenName Sample.sample_metadata
              Sample.sample_heap [0; 1] "uiBackground" eq_refl) as [Hfirst _].
  destruct (tokenData_first_entry Sample.formatTokenName Sample.sample_metadata
              Sample.sample_heap [0; 1] "focus" eq_refl) as [_ Hnone].
  split.
  - refine (Hfirst [0] 1 [] eq_refl _ eq_refl). repeat constructor. discriminate.
  - apply Hnone. repeat constructor; discriminate.
Defined.
